(** * libdns-omglol: name translation and record reconciliation

    A shallow embedding of [provider.go], [models.go] and [client.go] of the
    omg.lol provider for libdns, and the properties of its name translation
    and of the four record operations.

    Go strings are byte sequences: they are [string] values here (a list of
    8-bit [ascii] characters).  Go's [int] is taken to be 64 bits wide; [int]
    and [int64] are [Z], with the wrap-around written out where the source
    can overflow.  A [libdns.Record] is used by the source only through its
    [RR()], so records are [RR] values; a nil slice and an empty slice are
    both the empty list. *)

From Stdlib Require Import String Ascii List ZArith Lia Bool Arith.
From Stdlib Require Import SpecFloat DecimalString DecimalPos DecimalZ.
Import ListNotations.
Local Open Scope Z_scope.
Local Open Scope string_scope.
Local Open Scope list_scope.

(** ** The parts of Go's [strings] package the provider calls *)

Module GoStrings.

(** [s[i:]] for [i <= len(s)]. *)
Definition dropStr (i : nat) (s : string) : string :=
  substring i (String.length s - i)%nat s.

(** [s[:i]] for [i <= len(s)]. *)
Definition takeStr (i : nat) (s : string) : string :=
  substring 0 i s.

(** [strings.HasSuffix]:
    [len(s) >= len(suffix) && s[len(s)-len(suffix):] == suffix]. *)
Definition HasSuffix (s suffix : string) : bool :=
  (String.length suffix <=? String.length s)%nat
  && (dropStr (String.length s - String.length suffix)%nat s =? suffix).

(** [strings.TrimSuffix]: [s] without the trailing [suffix], or [s] itself
    when it does not end with [suffix]. *)
Definition TrimSuffix (s suffix : string) : string :=
  if HasSuffix s suffix
  then takeStr (String.length s - String.length suffix)%nat s
  else s.

(** [strings.SplitN(s, sep, 2)] for a non-empty [sep]: the text before the
    first [sep] and the text after it, or [s] alone when [sep] does not
    occur. *)
Definition SplitN2 (s sep : string) : list string :=
  match index 0 sep s with
  | Some i => [takeStr i s; dropStr (i + String.length sep)%nat s]
  | None => [s]
  end.

(** Byte values of the letters [EqualFold] tests. *)
Definition byteVal (c : ascii) : N := N_of_ascii c.

(** The ASCII step of [strings.EqualFold]: equal bytes, or an upper-case
    letter and its lower-case form ([sr] is made the smaller one). *)
Definition asciiFoldEq (a b : ascii) : bool :=
  if Ascii.eqb a b then true
  else
    let sr := N.min (byteVal a) (byteVal b) in
    let tr := N.max (byteVal a) (byteVal b) in
    ((65 <=? sr) && (sr <=? 90) && (tr =? sr + 32))%N.

End GoStrings.
Export GoStrings.

(** ** Numbers: [strconv], [time] and float conversion *)

Module GoNumbers.

(** [time.Second], in nanoseconds ([time.Duration] is an [int64]). *)
Definition Second : Z := 1000000000.

(** An [int64] result after wrap-around. *)
Definition wrap64 (z : Z) : Z := (z + 2 ^ 63) mod 2 ^ 64 - 2 ^ 63.

Definition inInt64 (z : Z) : bool := ((- 2 ^ 63 <=? z) && (z <? 2 ^ 63))%Z.

(** [strconv.FormatInt(z, 10)]. *)
Definition FormatInt10 (z : Z) : string := NilZero.string_of_int (Z.to_int z).

Definition digitVal (c : ascii) : option Z :=
  let n := byteVal c in
  if ((48 <=? n) && (n <=? 57))%N then Some (Z.of_N n - 48) else None.

Fixpoint parseDigits (s : string) (acc : Z) : option Z :=
  match s with
  | EmptyString => Some acc
  | String c s' =>
      match digitVal c with
      | Some d => parseDigits s' (acc * 10 + d)
      | None => None
      end
  end.

(** [strconv.Atoi] on a 64-bit platform; [None] is a non-nil error.  An
    optional sign and at least one decimal digit, nothing else, and a value
    that fits an [int]: the fast path and [ParseInt(s, 10, 0)] agree on
    this. *)
Definition Atoi (s : string) : option Z :=
  match s with
  | EmptyString => None
  | String c s' =>
      let signed := (Ascii.eqb c "-" || Ascii.eqb c "+")%char in
      let body := if signed then s' else s in
      match body with
      | EmptyString => None
      | _ =>
          match parseDigits body 0 with
          | Some n =>
              let v := if Ascii.eqb c "-" then - n else n in
              if inInt64 v then Some v else None
          | None => None
          end
      end
  end.

(** The integral part of a finite [float64] (truncation towards zero). *)
Definition truncFloat64 (f : spec_float) : option Z :=
  match f with
  | S754_zero _ => Some 0
  | S754_finite sign m e =>
      let a := if (0 <=? e)%Z then Zpos m * 2 ^ e else Zpos m / 2 ^ (- e) in
      Some (if sign then - a else a)
  | S754_infinity _ | S754_nan => None
  end.

(** The [float64] nearest to an integer, as a JSON number is decoded. *)
Definition float64OfZ (z : Z) : spec_float := binary_normalize 53 1024 z 0 false.

End GoNumbers.
Export GoNumbers.

(** ** Behaviour of the Go runtime that the source leaves to the platform

    [equalFoldUnicode] is the [hasUnicode] tail of [strings.EqualFold], run
    on the two remaining suffixes once a byte of [0x80] or more is met (it
    decodes UTF-8 and consults the Unicode case-folding tables).
    [float64ToIntOOR] is the result of converting to an integer a [float64]
    that is not a number or whose integral part is outside the integer's
    range, which the Go specification leaves to the implementation.  Every
    general theorem below holds for all runtimes. *)
Class GoRuntime : Type := {
  equalFoldUnicode : string -> string -> bool;
  float64ToIntOOR : spec_float -> Z
}.

(** ** Data model ([models.go] and libdns) *)

(** What a Go [interface{}] field of a record can hold: the values
    [encoding/json] decodes into it (nil, [float64], string, bool, and arrays
    or objects, kept by their [%v] rendering) and the [int] that [SetRecords]
    stores. *)
Inductive GoValue : Type :=
| VNil
| VFloat64 (f : spec_float)
| VString (s : string)
| VInt (n : Z)
| VBool (b : bool)
| VComposite (shown : string).

(** [omglolRecord]: a DNS record as returned by the omg.lol API. *)
Record omglolRecord : Type := {
  recID : GoValue;
  recType : string;
  recName : string;
  recData : string;
  recPriority : option Z;
  recTTL : GoValue
}.

(** [omglolRecordPayload]: the JSON body of create and update requests. *)
Record omglolRecordPayload : Type := {
  plType : string;
  plName : string;
  plData : string;
  plTTL : Z
}.

(** [libdns.RR], which is also what [record.RR()] gives for an input record;
    [rrTTL] is a [time.Duration] in nanoseconds. *)
Record RR : Type := {
  rrName : string;
  rrTTL : Z;
  rrType : string;
  rrData : string
}.

(** [Provider]: the API key and the omg.lol address that owns the zone. *)
Record Provider : Type := {
  APIKey : string;
  Address : string
}.

(** Go's [error] values of [client.go]: a transport failure, a status other
    than 200 with the body, an envelope that does not parse, and an envelope
    whose success flag is false. *)
Inductive error : Type :=
| TransportError (msg : string)
| StatusError (status : Z) (body : string)
| ParseError (msg : string)
| Unsuccessful (msg : string).

(** ** Name translation *)

(** The three trims of [libdns.RelativeName]. *)
Definition trimRelative (fqdn zone : string) : string :=
  TrimSuffix (TrimSuffix (TrimSuffix fqdn ".") (TrimSuffix zone ".")) ".".

(** Modelled from the spec: [libdns.RelativeName], which the sources import
    and do not contain ("strip the zone suffix, leaving the label chain;
    empty result means apex").  This is libdns 1.x: trailing dots are ignored
    on both sides, and an empty result is the apex marker when both
    arguments are non-empty.  [relativeName_variant] shows the provider does
    not depend on that last test. *)
Definition RelativeName (fqdn zone : string) : string :=
  let rel := trimRelative fqdn zone in
  if (rel =? "") && negb (fqdn =? "") && negb (zone =? "") then "@" else rel.

(** [parts := strings.SplitN(strings.TrimSuffix(zone, "."), ".", 2);
    address := parts[0]], as [namesMatch] and [libdnsRecordToPayload] both
    compute it. *)
Definition zoneAddress (zone : string) : string :=
  nth 0%nat (SplitN2 (TrimSuffix zone ".") ".") "".

(** The [switch relativeName] of [libdnsRecordToPayload]. *)
Definition toProviderName (relativeName address : string) : string :=
  if (relativeName =? "@") || (relativeName =? "") then address
  else relativeName.

(** The name computed by [toLibdnsRecord]. *)
Definition toRelativeName (providerName zone : string) : string :=
  let name := RelativeName (providerName ++ "." ++ TrimSuffix zone ".") zone in
  if name =? "" then "@" else name.

Section WithRuntime.
Context {rt : GoRuntime}.

(** [strings.EqualFold]: the byte loop of the ASCII fast path; when the
    common prefix is exhausted the strings are equal only if both are. *)
Fixpoint EqualFold (s t : string) : bool :=
  match s, t with
  | String a s', String b t' =>
      if ((128 <=? byteVal a) || (128 <=? byteVal b))%N
      then equalFoldUnicode s t
      else if asciiFoldEq a b then EqualFold s' t' else false
  | EmptyString, EmptyString => true
  | _, _ => false
  end.

(** [int64(v)] and, on a 64-bit platform, [int(v)] for a [float64]. *)
Definition float64ToInt (f : spec_float) : Z :=
  match truncFloat64 f with
  | Some z => if inInt64 z then z else float64ToIntOOR f
  | None => float64ToIntOOR f
  end.

(** [recordID]: the ID as a string, whatever the API returned. *)
Definition recordID (r : omglolRecord) : string :=
  match recID r with
  | VFloat64 v => FormatInt10 (float64ToInt v)
  | VString v => v
  | VNil => "<nil>"
  | VInt n => FormatInt10 n
  | VBool b => if b then "true" else "false"
  | VComposite shown => shown
  end.

(** [ttlSeconds]: the TTL as a number of seconds. *)
Definition ttlSeconds (r : omglolRecord) : Z :=
  match recTTL r with
  | VFloat64 v => float64ToInt v
  | VString v =>
      match Atoi v with
      | Some n => n
      | None => 3600
      end
  | _ => 3600
  end.

(** [toLibdnsRecord]. *)
Definition toLibdnsRecord (r : omglolRecord) (zone : string) : RR :=
  let ttl := wrap64 (ttlSeconds r * Second) in
  {| rrName := toRelativeName (recName r) zone;
     rrTTL := ttl;
     rrType := recType r;
     rrData := recData r |}.

(** [namesMatch]. *)
Definition namesMatch (apiName payloadName zone : string) : bool :=
  let address := zoneAddress zone in
  let apiLabel := TrimSuffix apiName ("." ++ address) in
  let apiLabel := if apiLabel =? address then address else apiLabel in
  EqualFold apiLabel payloadName || EqualFold apiName payloadName.

End WithRuntime.

(** [libdnsRecordToPayload]. *)
Definition libdnsRecordToPayload (rr : RR) (zone : string) : omglolRecordPayload :=
  let ttl := Z.quot (rrTTL rr) Second in
  let ttl := if (ttl <=? 0)%Z then 300 else ttl in
  let address := zoneAddress zone in
  let relativeName := RelativeName (rrName rr) zone in
  {| plType := rrType rr;
     plName := toProviderName relativeName address;
     plData := rrData rr;
     plTTL := ttl |}.

(** ** The record store ([client.go])

    The four client functions each send one HTTP request and decode the
    answer.  An invocation of one of them is recorded as a [Call], with the
    provider whose address and key it uses; what the function hands back to
    its caller (the decoded answer, or the error of the transport, of the
    status, of the parser or of the envelope) is given by a [Store], which
    may answer by the whole history of calls before it.  The context
    argument of the Go functions is not modelled. *)

Inductive Call : Type :=
| ListCall (p : Provider)
| CreateCall (p : Provider) (payload : omglolRecordPayload)
| UpdateCall (p : Provider) (id : string) (payload : omglolRecordPayload)
| DeleteCall (p : Provider) (id : string).

Record Store : Type := {
  listReply : list Call -> Provider -> error + list omglolRecord;
  createReply : list Call -> Provider -> omglolRecordPayload -> error + omglolRecord;
  updateReply : list Call -> Provider -> string -> omglolRecordPayload -> option error;
  deleteReply : list Call -> Provider -> string -> option error
}.

(** A computation that talks to the store: from the calls made so far to a
    result and the calls made after it. *)
Definition Client (A : Type) : Type := list Call -> A * list Call.

Definition ret {A : Type} (a : A) : Client A := fun h => (a, h).

Definition bind {A B : Type} (m : Client A) (k : A -> Client B) : Client B :=
  fun h => let (a, h') := m h in k a h'.

Notation "x <- m ;; k" := (bind m (fun x => k))
  (at level 61, m at next level, right associativity).

(** What a multi-record operation returns: the records and the error
    ([None] is [nil]). *)
Definition Outcome : Type := (list RR * option error)%type.

Section WithStore.
Context {rt : GoRuntime}.
Variable srv : Store.

(** [listRecords]. *)
Definition listRecords (p : Provider) : Client (error + list omglolRecord) :=
  fun h => (listReply srv h p, h ++ [ListCall p]).

(** [createRecord]. *)
Definition createRecord (p : Provider) (payload : omglolRecordPayload)
  : Client (error + omglolRecord) :=
  fun h => (createReply srv h p payload, h ++ [CreateCall p payload]).

(** [updateRecord]. *)
Definition updateRecord (p : Provider) (id : string) (payload : omglolRecordPayload)
  : Client (option error) :=
  fun h => (updateReply srv h p id payload, h ++ [UpdateCall p id payload]).

(** [deleteRecord]. *)
Definition deleteRecord (p : Provider) (id : string) : Client (option error) :=
  fun h => (deleteReply srv h p id, h ++ [DeleteCall p id]).

(** ** The four operations ([provider.go]) *)

(** [GetRecords]. *)
Definition GetRecords (p : Provider) (zone : string)
  : Client (error + list RR) :=
  raw <- listRecords p ;;
  match raw with
  | inl err => ret (inl err)
  | inr raw => ret (inr (map (fun r => toLibdnsRecord r zone) raw))
  end.

(** The loop of [AppendRecords], from the records [created] so far. *)
Fixpoint appendLoop (p : Provider) (zone : string) (records : list RR)
  (created : list RR) : Client Outcome :=
  match records with
  | [] => ret (created, None)
  | record :: rest =>
      let payload := libdnsRecordToPayload record zone in
      result <- createRecord p payload ;;
      match result with
      | inl err => ret (created, Some err)
      | inr result =>
          appendLoop p zone rest (created ++ [toLibdnsRecord result zone])
      end
  end.

(** [AppendRecords]. *)
Definition AppendRecords (p : Provider) (zone : string) (records : list RR)
  : Client Outcome :=
  appendLoop p zone records [].

(** The search of [SetRecords] for an existing record with the same type and
    name: the first one, if any. *)
Definition findMatched (existing : list omglolRecord) (rr : RR)
  (payload : omglolRecordPayload) (zone : string) : option omglolRecord :=
  find (fun e => EqualFold (recType e) (rrType rr)
                 && namesMatch (recName e) (plName payload) zone) existing.

(** The loop of [SetRecords]. *)
Fixpoint setLoop (p : Provider) (zone : string) (existing : list omglolRecord)
  (records : list RR) (results : list RR) : Client Outcome :=
  match records with
  | [] => ret (results, None)
  | record :: rest =>
      let payload := libdnsRecordToPayload record zone in
      match findMatched existing record payload zone with
      | Some matched =>
          let id := recordID matched in
          err <- updateRecord p id payload ;;
          match err with
          | Some err => ret (results, Some err)
          | None =>
              let updated :=
                {| recID := recID matched;
                   recType := plType payload;
                   recName := plName payload;
                   recData := plData payload;
                   recPriority := None;
                   recTTL := VInt (plTTL payload) |} in
              setLoop p zone existing rest
                (results ++ [toLibdnsRecord updated zone])
          end
      | None =>
          created <- createRecord p payload ;;
          match created with
          | inl err => ret (results, Some err)
          | inr created =>
              setLoop p zone existing rest
                (results ++ [toLibdnsRecord created zone])
          end
      end
  end.

(** [SetRecords]. *)
Definition SetRecords (p : Provider) (zone : string) (records : list RR)
  : Client Outcome :=
  existing <- listRecords p ;;
  match existing with
  | inl err => ret ([], Some err)
  | inr existing => setLoop p zone existing records []
  end.

(** The inner loop of [DeleteRecords] over the existing records, for one
    input record; [None] when it ran to its end, [Some err] when a delete
    call failed and the operation returns. *)
Fixpoint deleteScan (p : Provider) (zone : string) (rr : RR)
  (payload : omglolRecordPayload) (existing : list omglolRecord)
  (deleted : list RR) : Client Outcome :=
  match existing with
  | [] => ret (deleted, None)
  | e :: rest =>
      if negb (EqualFold (recType e) (rrType rr)) then
        deleteScan p zone rr payload rest deleted
      else if negb (namesMatch (recName e) (plName payload) zone) then
        deleteScan p zone rr payload rest deleted
      else if negb (rrData rr =? "") && negb (recData e =? rrData rr) then
        deleteScan p zone rr payload rest deleted
      else
        let id := recordID e in
        err <- deleteRecord p id ;;
        match err with
        | Some err => ret (deleted, Some err)
        | None =>
            deleteScan p zone rr payload rest
              (deleted ++ [toLibdnsRecord e zone])
        end
  end.

(** The outer loop of [DeleteRecords]. *)
Fixpoint deleteLoop (p : Provider) (zone : string) (existing : list omglolRecord)
  (records : list RR) (deleted : list RR) : Client Outcome :=
  match records with
  | [] => ret (deleted, None)
  | record :: rest =>
      let payload := libdnsRecordToPayload record zone in
      r <- deleteScan p zone record payload existing deleted ;;
      match r with
      | (deleted, Some err) => ret (deleted, Some err)
      | (deleted, None) => deleteLoop p zone existing rest deleted
      end
  end.

(** [DeleteRecords]. *)
Definition DeleteRecords (p : Provider) (zone : string) (records : list RR)
  : Client Outcome :=
  existing <- listRecords p ;;
  match existing with
  | inl err => ret ([], Some err)
  | inr existing => deleteLoop p zone existing records []
  end.

End WithStore.

(** ** The requests of the client functions ([client.go])

    The four client functions in full: the request each one builds, and
    what it makes of the answer.  What lies outside the repository is given
    by a [Wire]: whether [http.NewRequestWithContext] accepts the method
    and URL, what [http.DefaultClient.Do] answers to a request after the
    requests made before it, and what [json.Marshal] and [json.Unmarshal]
    do ([unmarshalList] and [unmarshalCreate] give the message of the
    decoding error, or the envelope's success flag with the decoded
    records).  The body of a response is what [io.ReadAll] reads from it:
    an error or the text. *)

Inductive Method : Type := GET | POST | PATCH | DELETE.

Record Request : Type := {
  reqMethod : Method;
  reqURL : string;
  reqAuthorization : string;
  reqContentType : option string;
  reqBody : option string
}.

Record Response : Type := {
  StatusCode : Z;
  respBody : error + string
}.

Record Wire : Type := {
  newRequestError : Method -> string -> option error;
  roundTrip : list Request -> Request -> error + Response;
  marshalPayload : omglolRecordPayload -> error + string;
  unmarshalList : string -> string + (bool * list omglolRecord);
  unmarshalCreate : string -> string + (bool * omglolRecord)
}.

Definition apiBase : string := "https://api.omg.lol".

(** [fmt.Sprintf("%s/address/%s/dns", apiBase, p.Address)]. *)
Definition dnsURL (p : Provider) : string :=
  apiBase ++ "/address/" ++ Address p ++ "/dns".

(** [fmt.Sprintf("%s/address/%s/dns/%s", apiBase, p.Address, id)]. *)
Definition recordURL (p : Provider) (id : string) : string :=
  apiBase ++ "/address/" ++ Address p ++ "/dns/" ++ id.

(** The request as the client functions set it up: the bearer key always,
    the JSON content type with a body. *)
Definition buildRequest (p : Provider) (method : Method) (url : string)
  (body : option string) : Request :=
  {| reqMethod := method;
     reqURL := url;
     reqAuthorization := "Bearer " ++ APIKey p;
     reqContentType :=
       match body with Some _ => Some "application/json" | None => None end;
     reqBody := body |}.

(** A computation that sends requests: from the requests sent so far to a
    result and the requests sent after it. *)
Definition Sender (A : Type) : Type := list Request -> A * list Request.

Section WithWire.
Variable w : Wire.

(** The steps all four functions share once the request is built: [Do],
    [io.ReadAll], and the test of the status; [inr body] is the body of an
    answer with status 200.  A request handed to [Do] counts as sent,
    whatever [Do] answers. *)
Definition exchange (req : Request) : Sender (error + string) :=
  fun sent =>
    (match roundTrip w sent req with
     | inl err => inl err
     | inr resp =>
         match respBody resp with
         | inl err => inl err
         | inr body =>
             if (StatusCode resp =? 200)%Z then inr body
             else inl (StatusError (StatusCode resp) body)
         end
     end,
     sent ++ [req]).

(** [listRecords], request by request. *)
Definition httpListRecords (p : Provider) : Sender (error + list omglolRecord) :=
  fun sent =>
    let url := dnsURL p in
    match newRequestError w GET url with
    | Some err => (inl err, sent)
    | None =>
        let (answer, sent') := exchange (buildRequest p GET url None) sent in
        (match answer with
         | inl err => inl err
         | inr body =>
             match unmarshalList w body with
             | inl msg =>
                 inl (ParseError ("omg.lol API: failed to parse response: " ++ msg))
             | inr (success, dns) =>
                 if negb success
                 then inl (Unsuccessful "omg.lol API: request unsuccessful")
                 else inr dns
             end
         end, sent')
    end.

(** [createRecord], request by request. *)
Definition httpCreateRecord (p : Provider) (payload : omglolRecordPayload)
  : Sender (error + omglolRecord) :=
  fun sent =>
    let url := dnsURL p in
    match marshalPayload w payload with
    | inl err => (inl err, sent)
    | inr data =>
        match newRequestError w POST url with
        | Some err => (inl err, sent)
        | None =>
            let (answer, sent') :=
              exchange (buildRequest p POST url (Some data)) sent in
            (match answer with
             | inl err => inl err
             | inr body =>
                 match unmarshalCreate w body with
                 | inl msg =>
                     inl (ParseError
                            ("omg.lol API: failed to parse create response: " ++ msg))
                 | inr (success, created) =>
                     if negb success
                     then inl (Unsuccessful "omg.lol API: create unsuccessful")
                     else inr created
                 end
             end, sent')
        end
    end.

(** [updateRecord], request by request. *)
Definition httpUpdateRecord (p : Provider) (id : string)
  (payload : omglolRecordPayload) : Sender (option error) :=
  fun sent =>
    let url := recordURL p id in
    match marshalPayload w payload with
    | inl err => (Some err, sent)
    | inr data =>
        match newRequestError w PATCH url with
        | Some err => (Some err, sent)
        | None =>
            let (answer, sent') :=
              exchange (buildRequest p PATCH url (Some data)) sent in
            (match answer with inl err => Some err | inr _ => None end, sent')
        end
    end.

(** [deleteRecord], request by request. *)
Definition httpDeleteRecord (p : Provider) (id : string) : Sender (option error) :=
  fun sent =>
    let url := recordURL p id in
    match newRequestError w DELETE url with
    | Some err => (Some err, sent)
    | None =>
        let (answer, sent') := exchange (buildRequest p DELETE url None) sent in
        (match answer with inl err => Some err | inr _ => None end, sent')
    end.




End WithWire.

(** [r] with another value in its ID field. *)
Definition withID (r : omglolRecord) (v : GoValue) : omglolRecord :=
  {| recID := v;
     recType := recType r;
     recName := recName r;
     recData := recData r;
     recPriority := recPriority r;
     recTTL := recTTL r |}.

(** ** Notions the properties are stated with *)

(** A zone whose name, once its trailing dot is dropped, is not empty and
    does not end with a dot, as a fully-qualified domain name is
    (["g.omg.lol."], and ["g.omg.lol"] too). *)
Definition wellFormedZone (zone : string) : bool :=
  negb (TrimSuffix zone "." =? "") && negb (HasSuffix (TrimSuffix zone ".") ".").

(** No byte of [s] is a dot: [s] is a single label. *)
Fixpoint dotFree (s : string) : bool :=
  match s with
  | EmptyString => true
  | String c s' => negb (Ascii.eqb c ".") && dotFree s'
  end.

(** Every byte of [s] is below [0x80]. *)
Fixpoint isASCII (s : string) : bool :=
  match s with
  | EmptyString => true
  | String c s' => (byteVal c <? 128)%N && isASCII s'
  end.

(** The lower-case form of an ASCII letter, other bytes unchanged. *)
Definition lowerByte (c : ascii) : ascii :=
  if ((65 <=? byteVal c) && (byteVal c <=? 90))%N
  then ascii_of_N (byteVal c + 32)
  else c.

Fixpoint lowerASCII (s : string) : string :=
  match s with
  | EmptyString => EmptyString
  | String c s' => String (lowerByte c) (lowerASCII s')
  end.

(** [rr] under another name. *)
Definition withName (rr : RR) (name : string) : RR :=
  {| rrName := name; rrTTL := rrTTL rr; rrType := rrType rr; rrData := rrData rr |}.

(** [r] with another value in its TTL field. *)
Definition withTTL (r : omglolRecord) (v : GoValue) : omglolRecord :=
  {| recID := recID r;
     recType := recType r;
     recName := recName r;
     recData := recData r;
     recPriority := recPriority r;
     recTTL := v |}.

(** The TTL arrived as a JSON number or a JSON string. *)
Definition isNumberOrString (v : GoValue) : bool :=
  match v with
  | VFloat64 _ | VString _ => true
  | _ => false
  end.

Definition isCreateCall (c : Call) : bool :=
  match c with CreateCall _ _ => true | _ => false end.

Definition isUpdateCall (c : Call) : bool :=
  match c with UpdateCall _ _ _ => true | _ => false end.

Definition isListCall (c : Call) : bool :=
  match c with ListCall _ => true | _ => false end.

Definition isDeleteCall (c : Call) : bool :=
  match c with DeleteCall _ _ => true | _ => false end.

(** The provider on whose behalf a call is made. *)
Definition callProvider (c : Call) : Provider :=
  match c with
  | ListCall p | CreateCall p _ | UpdateCall p _ _ | DeleteCall p _ => p
  end.

Definition createCallOf (p : Provider) (zone : string) (record : RR) : Call :=
  CreateCall p (libdnsRecordToPayload record zone).

Definition deleteCallOf {rt : GoRuntime} (p : Provider) (e : omglolRecord) : Call :=
  DeleteCall p (recordID e).

(** The existing record [e] is one that [DeleteRecords] deletes for the input
    [record]: same type up to case, matching name, and the same data when
    the input gives data. *)
Definition deleteMatches {rt : GoRuntime} (zone : string) (record : RR)
  (e : omglolRecord) : bool :=
  EqualFold (recType e) (rrType record)
  && namesMatch (recName e) (plName (libdnsRecordToPayload record zone)) zone
  && ((rrData record =? "") || (recData e =? rrData record)).

(** The existing records to delete, input record by input record, each
    time in the order of the existing records. *)
Definition deleteTargets {rt : GoRuntime} (zone : string)
  (existing : list omglolRecord) (records : list RR) : list omglolRecord :=
  flat_map (fun record => filter (deleteMatches zone record) existing) records.

(** Deleting [targets] one after the other, stopping at the first delete
    call that fails. *)
Fixpoint deleteAll {rt : GoRuntime} (srv : Store) (p : Provider) (zone : string)
  (targets : list omglolRecord) (deleted : list RR) : Client Outcome :=
  match targets with
  | [] => ret (deleted, None)
  | e :: rest =>
      err <- deleteRecord srv p (recordID e) ;;
      match err with
      | Some err => ret (deleted, Some err)
      | None => deleteAll srv p zone rest (deleted ++ [toLibdnsRecord e zone])
      end
  end.

(** Every delete call for [targets], made in turn from the history [h], is
    accepted by the store. *)
Fixpoint deletesSucceed {rt : GoRuntime} (srv : Store) (p : Provider)
  (h : list Call) (targets : list omglolRecord) : Prop :=
  match targets with
  | [] => True
  | e :: rest =>
      deleteReply srv h p (recordID e) = None
      /\ deletesSucceed srv p (h ++ [deleteCallOf p e]) rest
  end.

(** The call [SetRecords] makes for one input record, given the existing
    records. *)
Definition setCallOf {rt : GoRuntime} (p : Provider) (zone : string)
  (existing : list omglolRecord) (record : RR) : Call :=
  let payload := libdnsRecordToPayload record zone in
  match findMatched existing record payload zone with
  | Some matched => UpdateCall p (recordID matched) payload
  | None => CreateCall p payload
  end.

(** The error, if any, with which the store answers call [c] after the
    history [h]. *)
Definition callError (srv : Store) (h : list Call) (c : Call) : option error :=
  match c with
  | ListCall p =>
      match listReply srv h p with inl e => Some e | inr _ => None end
  | CreateCall p payload =>
      match createReply srv h p payload with inl e => Some e | inr _ => None end
  | UpdateCall p id payload => updateReply srv h p id payload
  | DeleteCall p id => deleteReply srv h p id
  end.

(** The outcome of a loop, continued by [next] from the records gathered so
    far unless the loop returned an error. *)
Definition andThen (first : Outcome * list Call)
  (next : list RR -> Client Outcome) : Outcome * list Call :=
  match first with
  | ((res, Some err), h1) => ((res, Some err), h1)
  | ((res, None), h1) => next res h1
  end.

(** Equality of calls and of listed records can be decided. *)
Definition Provider_eq_dec (x y : Provider) : {x = y} + {x <> y}.
Proof. decide equality; apply string_dec. Defined.

Definition payload_eq_dec (x y : omglolRecordPayload) : {x = y} + {x <> y}.
Proof. decide equality; first [apply string_dec | apply Z.eq_dec]. Defined.

Definition Call_eq_dec (x y : Call) : {x = y} + {x <> y}.
Proof.
  decide equality;
    first [apply string_dec | apply Provider_eq_dec | apply payload_eq_dec].
Defined.

Definition RR_eq_dec (x y : RR) : {x = y} + {x <> y}.
Proof. decide equality; first [apply string_dec | apply Z.eq_dec]. Defined.

(** The calls of a loop over [items], each making the call [call x]: calls
    for the first [k] items; with no error all items were processed and [n]
    records gathered; with an error the last call is the one the store
    refused with it, and [n] records were gathered before. *)
Definition loopShape {X : Type} (srv : Store) (call : X -> Call) (items : list X)
  (h : list Call) (run : Outcome * list Call) (acc : list RR) : Prop :=
  exists (k : nat) (new : list RR),
    (k <= length items)%nat
    /\ snd run = h ++ map call (firstn k items)
    /\ fst (fst run) = acc ++ new
    /\ match snd (fst run) with
       | None => k = length items /\ length new = k
       | Some err =>
           exists (done : list X) (x : X),
             firstn k items = done ++ [x]
             /\ callError srv (h ++ map call done) (call x) = Some err
             /\ length new = length done
       end.

(** The value of a list of decimal digits read after [acc], as
    [parseDigits] accumulates it. *)
Fixpoint digitsValue (d : Decimal.uint) (acc : Z) : Z :=
  match d with
  | Decimal.Nil => acc
  | Decimal.D0 l => digitsValue l (acc * 10 + 0)
  | Decimal.D1 l => digitsValue l (acc * 10 + 1)
  | Decimal.D2 l => digitsValue l (acc * 10 + 2)
  | Decimal.D3 l => digitsValue l (acc * 10 + 3)
  | Decimal.D4 l => digitsValue l (acc * 10 + 4)
  | Decimal.D5 l => digitsValue l (acc * 10 + 5)
  | Decimal.D6 l => digitsValue l (acc * 10 + 6)
  | Decimal.D7 l => digitsValue l (acc * 10 + 7)
  | Decimal.D8 l => digitsValue l (acc * 10 + 8)
  | Decimal.D9 l => digitsValue l (acc * 10 + 9)
  end.



(** ** A store and a runtime to run scenarios with *)

(** The record a store creates for a payload, numbered [id]. *)
Definition echoRecord (id : Z) (payload : omglolRecordPayload) : omglolRecord :=
  {| recID := VFloat64 (float64OfZ id);
     recType := plType payload;
     recName := plName payload;
     recData := plData payload;
     recPriority := None;
     recTTL := VFloat64 (float64OfZ (plTTL payload)) |}.

(** A store that lists [existing], answers the first [budget] calls and
    fails every later one with status 500. *)
Definition budgetStore (existing : list omglolRecord) (budget : nat) : Store :=
  let refused := StatusError 500 "" in
  {| listReply := fun h _ =>
       if (length h <? budget)%nat then inr existing else inl refused;
     createReply := fun h _ payload =>
       if (length h <? budget)%nat
       then inr (echoRecord (Z.of_nat (length h)) payload)
       else inl refused;
     updateReply := fun h _ _ _ =>
       if (length h <? budget)%nat then None else Some refused;
     deleteReply := fun h _ _ =>
       if (length h <? budget)%nat then None else Some refused |}.

(** A wire for scenarios: every request is accepted and answered with
    status [status] and the body "{}", which decodes to a successful empty
    envelope when [flag] is true and to an unsuccessful one otherwise. *)
Definition scenarioWire (status : Z) (flag : bool) : Wire :=
  {| newRequestError := fun _ _ => None;
     roundTrip := fun _ _ => inr {| StatusCode := status; respBody := inr "{}" |};
     marshalPayload := fun payload => inr (plData payload);
     unmarshalList := fun _ => inr (flag, []);
     unmarshalCreate := fun _ =>
       inr (flag, echoRecord 1 {| plType := "A"; plName := "www.g";
                                  plData := "192.0.2.1"; plTTL := 60 |}) |}.

(** The provider of the scenarios: the address "g" owns "g.omg.lol.". *)
Definition demoProvider : Provider := {| APIKey := "secret"; Address := "g" |}.

(** A runtime for scenarios whose names are ASCII and whose numbers are in
    range, where neither field is consulted. *)
Definition asciiRuntime : GoRuntime :=
  {| equalFoldUnicode := fun _ _ => false;
     float64ToIntOOR := fun _ => - 2 ^ 63 |}.


(** * Properties *)

(** ** Suffixes of strings *)

Module StringFacts.

Lemma length_app (a b : string) :
  String.length (a ++ b) = (String.length a + String.length b)%nat.
Proof. induction a as [|c a IH]; simpl; [reflexivity | now rewrite IH]. Qed.

Lemma app_assoc_str (a b c : string) : ((a ++ b) ++ c = a ++ b ++ c)%string.
Proof. induction a as [|x a IH]; simpl; [reflexivity | now rewrite IH]. Qed.

Lemma app_empty_r (a : string) : (a ++ "" = a)%string.
Proof. induction a as [|x a IH]; simpl; [reflexivity | now rewrite IH]. Qed.

Lemma substring_all (s : string) : substring 0 (String.length s) s = s.
Proof. induction s as [|c s IH]; simpl; [reflexivity | now rewrite IH]. Qed.

Lemma takeStr_app (a b : string) : takeStr (String.length a) (a ++ b) = a.
Proof.
  unfold takeStr. induction a as [|c a IH]; simpl.
  - now destruct b.
  - now rewrite IH.
Qed.

Lemma substring_skip (a b : string) (k m : nat) :
  substring (String.length a + k) m (a ++ b) = substring k m b.
Proof. induction a as [|c a IH]; simpl; [reflexivity | exact IH]. Qed.

Lemma dropStr_app (a b : string) (k : nat) :
  dropStr (String.length a + k) (a ++ b) = dropStr k b.
Proof.
  unfold dropStr. rewrite substring_skip, length_app.
  f_equal. lia.
Qed.

Lemma dropStr_0 (s : string) : dropStr 0 s = s.
Proof. unfold dropStr. rewrite Nat.sub_0_r. apply substring_all. Qed.

(** A string that is a suffix is found and trimmed. *)
Lemma HasSuffix_app (a b : string) : HasSuffix (a ++ b) b = true.
Proof.
  unfold HasSuffix. rewrite length_app.
  replace (String.length a + String.length b - String.length b)%nat
    with (String.length a + 0)%nat by lia.
  rewrite dropStr_app, dropStr_0, String.eqb_refl, andb_true_r.
  apply Nat.leb_le. lia.
Qed.

Lemma TrimSuffix_app (a b : string) : TrimSuffix (a ++ b) b = a.
Proof.
  unfold TrimSuffix. rewrite HasSuffix_app, length_app.
  replace (String.length a + String.length b - String.length b)%nat
    with (String.length a) by lia.
  apply takeStr_app.
Qed.

(** Whether [c] ends [a ++ b] is decided inside [b] when [c] is no longer
    than [b]. *)
Lemma HasSuffix_app_r (a b c : string) :
  (String.length c <= String.length b)%nat ->
  HasSuffix (a ++ b) c = HasSuffix b c.
Proof.
  intros Hle. unfold HasSuffix. rewrite length_app.
  replace (String.length a + String.length b - String.length c)%nat
    with (String.length a + (String.length b - String.length c))%nat by lia.
  rewrite dropStr_app. f_equal.
  destruct (Nat.leb_spec (String.length c) (String.length b));
    destruct (Nat.leb_spec (String.length c) (String.length a + String.length b));
    try reflexivity; lia.
Qed.

Lemma TrimSuffix_absent (s suffix : string) :
  HasSuffix s suffix = false -> TrimSuffix s suffix = s.
Proof. intros H. unfold TrimSuffix. now rewrite H. Qed.

Lemma length_zero (s : string) : String.length s = 0%nat -> s = "".
Proof. destruct s; simpl; [reflexivity | discriminate]. Qed.

End StringFacts.
Import StringFacts.

(** ** Name translation *)

(** In a well-formed zone, [toLibdnsRecord] gives back the provider's name as
    it is: the zone it appends is the zone it strips. *)
Lemma toRelativeName_wellFormed (providerName zone : string) :
  wellFormedZone zone = true ->
  providerName <> "" ->
  toRelativeName providerName zone = providerName.
Proof.
  unfold wellFormedZone. intros Hwf Hne.
  apply andb_true_iff in Hwf as [Hz Hdot].
  apply negb_true_iff in Hz, Hdot.
  apply String.eqb_neq in Hz.
  set (zt := TrimSuffix zone ".") in *.
  assert (Hlen : (String.length "." <= String.length zt)%nat).
  { destruct zt; [congruence | simpl; lia]. }
  assert (Htrim : trimRelative (providerName ++ "." ++ zt) zone = providerName).
  { unfold trimRelative. fold zt.
    rewrite (TrimSuffix_absent (providerName ++ "." ++ zt) ".").
    - rewrite <- app_assoc_str, TrimSuffix_app. apply TrimSuffix_app.
    - rewrite <- app_assoc_str, HasSuffix_app_r by exact Hlen. exact Hdot. }
  unfold toRelativeName, RelativeName. fold zt. rewrite Htrim.
  apply String.eqb_neq in Hne. rewrite Hne. simpl. now rewrite Hne.
Qed.

(** The provider gives the same names whether or not [RelativeName] itself
    turns an empty result into the apex marker ([trimRelative] is that
    function without the test). *)
Lemma relativeName_variant (name zone address : string) :
  toRelativeName name zone
  = (let rel := trimRelative (name ++ "." ++ TrimSuffix zone ".") zone in
     if rel =? "" then "@" else rel)
  /\ toProviderName (RelativeName name zone) address
     = toProviderName (trimRelative name zone) address.
Proof.
  unfold toRelativeName, toProviderName, RelativeName. split.
  - cbv zeta. generalize (name ++ "." ++ TrimSuffix zone ".")%string. intros fq.
    destruct (trimRelative fq zone =? "") eqn:E; simpl.
    + destruct (negb _ && negb _); simpl; rewrite ?E; reflexivity.
    + now rewrite E.
  - destruct (trimRelative name zone =? "") eqn:E; simpl.
    + apply String.eqb_eq in E. rewrite E.
      destruct (negb _ && negb _); reflexivity.
    + now rewrite E.
Qed.

(** The provider's apex name in a well-formed zone comes back unchanged. *)
Lemma apex_name_comes_back (zone : string) :
  wellFormedZone zone = true ->
  zoneAddress zone <> "" ->
  toRelativeName (zoneAddress zone) zone = zoneAddress zone.
Proof. intros Hwf Hne. now apply toRelativeName_wellFormed. Qed.

(** Outside well-formed zones the zone that is appended need not be the one
    that is stripped. *)
Example toRelativeName_doubled_dot :
  wellFormedZone "g.omg.lol.." = false
  /\ toRelativeName "www" "g.omg.lol.." = "www.g.omg.lol".
Proof. split; reflexivity. Qed.

(** C2: for the zone "g.omg.lol." the address is "g", and the provider
    record named by the bare address "g" is listed under the name "g", not
    under the apex marker "@": [toRelativeName] appends the zone to the
    provider's name and strips it again.  The same holds through
    [toLibdnsRecord] and [GetRecords]. *)
Theorem C2_apex_listed_as_address :
  zoneAddress "g.omg.lol." = "g"
  /\ toRelativeName "g" "g.omg.lol." = "g"
  /\ toRelativeName "g" "g.omg.lol." <> "@"
  /\ (forall (rt : GoRuntime) (r : omglolRecord),
        rrName (toLibdnsRecord
                  {| recID := recID r; recType := recType r; recName := "g";
                     recData := recData r; recPriority := recPriority r;
                     recTTL := recTTL r |} "g.omg.lol.") = "g")
  /\ (forall (rt : GoRuntime) (p : Provider) (h : list Call),
        fst (GetRecords
               (budgetStore [echoRecord 1 {| plType := "A"; plName := "g";
                                             plData := "192.0.2.1";
                                             plTTL := 3600 |}]
                  (S (length h))) p "g.omg.lol." h)
        = inr [{| rrName := "g"; rrTTL := 3600 * Second; rrType := "A";
                  rrData := "192.0.2.1" |}]).
Proof.
  repeat split; try reflexivity.
  - discriminate.
  - intros rt p h. unfold GetRecords, bind, listRecords, budgetStore. simpl.
    destruct (Nat.ltb_spec (length h) (S (length h))) as [_|H]; [|lia].
    reflexivity.
Qed.

(** C4: in a well-formed zone, a name other than "@" and the empty name
    goes to the provider unchanged and comes back unchanged; the same
    through [libdnsRecordToPayload] and [toLibdnsRecord] for a record whose
    name is already relative to the zone. *)
Theorem C4_name_roundtrip (n zone : string) :
  wellFormedZone zone = true ->
  n <> "@" ->
  n <> "" ->
  toRelativeName (toProviderName n (zoneAddress zone)) zone = n
  /\ (RelativeName n zone = n ->
      forall (rt : GoRuntime) (ttl : Z) (type data : string) (created : omglolRecord),
        let payload :=
          libdnsRecordToPayload
            {| rrName := n; rrTTL := ttl; rrType := type; rrData := data |} zone in
        recName created = plName payload ->
        rrName (toLibdnsRecord created zone) = n).
Proof.
  intros Hwf Hat Hne.
  assert (Hprov : toProviderName n (zoneAddress zone) = n).
  { unfold toProviderName.
    apply String.eqb_neq in Hat, Hne. now rewrite Hat, Hne. }
  split.
  - rewrite Hprov. now apply toRelativeName_wellFormed.
  - intros Hrel rt ttl type data created payload Hname.
    unfold toLibdnsRecord. simpl. rewrite Hname.
    unfold payload, libdnsRecordToPayload. simpl.
    rewrite Hrel, Hprov. now apply toRelativeName_wellFormed.
Qed.

Lemma C4_name_roundtrip_witness :
  toRelativeName (toProviderName "_acme-challenge" (zoneAddress "g.omg.lol."))
    "g.omg.lol." = "_acme-challenge"
  /\ (forall (rt : GoRuntime) (ttl : Z) (type data : string) (created : omglolRecord),
        recName created
        = plName (libdnsRecordToPayload
                    {| rrName := "_acme-challenge"; rrTTL := ttl; rrType := type;
                       rrData := data |} "g.omg.lol.") ->
        rrName (toLibdnsRecord created "g.omg.lol.") = "_acme-challenge").
Proof.
  destruct (C4_name_roundtrip "_acme-challenge" "g.omg.lol.") as [H1 H2].
  - reflexivity.
  - discriminate.
  - discriminate.
  - split; [exact H1 | intros rt ttl type data created; exact (H2 eq_refl rt ttl type data created)].
Defined.

(** ** The address of a zone and matching of names *)

Lemma index_dot_cons (c : ascii) (s : string) :
  index 0 "." (String c s)
  = if Ascii.eqb c "." then Some 0%nat else option_map S (index 0 "." s).
Proof.
  change (index 0 "." (String c s))
    with (if prefix "." (String c s) then Some 0%nat
          else match index 0 "." s with Some n => Some (S n) | None => None end).
  change (prefix "." (String c s))
    with (if ascii_dec "." c then prefix "" s else false).
  destruct (ascii_dec "." c) as [<-|Hne].
  - now destruct s.
  - destruct (Ascii.eqb_spec c ".") as [->|_]; [congruence|].
    now destruct (index 0 "." s).
Qed.

Lemma index_dot_first (a b : string) :
  dotFree a = true ->
  index 0 "." (a ++ "." ++ b) = Some (String.length a).
Proof.
  induction a as [|c a IH]; intros H.
  - change ("" ++ "." ++ b)%string with (String "." b).
    now rewrite index_dot_cons.
  - simpl in H. apply andb_true_iff in H as [Hc Ha].
    apply negb_true_iff in Hc.
    change (String c a ++ "." ++ b)%string with (String c (a ++ "." ++ b)).
    rewrite index_dot_cons, Hc, (IH Ha). reflexivity.
Qed.

Lemma index_dot_none (a : string) :
  dotFree a = true -> index 0 "." a = None.
Proof.
  induction a as [|c a IH]; intros H.
  - reflexivity.
  - simpl in H. apply andb_true_iff in H as [Hc Ha].
    apply negb_true_iff in Hc.
    rewrite index_dot_cons, Hc, (IH Ha). reflexivity.
Qed.

(** The address is the first label of the zone. *)
Lemma zoneAddress_first_label (zone a b : string) :
  dotFree a = true ->
  TrimSuffix zone "." = (a ++ "." ++ b)%string ->
  zoneAddress zone = a.
Proof.
  intros Ha Hz. unfold zoneAddress, SplitN2.
  rewrite Hz, (index_dot_first a b Ha). simpl. apply takeStr_app.
Qed.

Lemma zoneAddress_single_label (zone : string) :
  dotFree (TrimSuffix zone ".") = true ->
  zoneAddress zone = TrimSuffix zone ".".
Proof.
  intros Hz. unfold zoneAddress, SplitN2.
  now rewrite (index_dot_none _ Hz).
Qed.

(** On ASCII bytes [EqualFold]'s step compares lower-case forms. *)
Lemma asciiFoldEq_lower (a b : ascii) :
  (byteVal a < 128)%N -> (byteVal b < 128)%N ->
  asciiFoldEq a b = Ascii.eqb (lowerByte a) (lowerByte b).
Proof.
  unfold asciiFoldEq, lowerByte, byteVal. intros Ha Hb.
  assert (Hinj : forall x y : ascii, N_of_ascii x = N_of_ascii y -> x = y).
  { intros x y E. rewrite <- (ascii_N_embedding x), <- (ascii_N_embedding y).
    now rewrite E. }
  assert (Hup : forall n, (n < 128)%N -> N_of_ascii (ascii_of_N (n + 32)) = (n + 32)%N).
  { intros n Hn. apply N_ascii_embedding. lia. }
  destruct (Ascii.eqb_spec a b) as [->|Hab].
  - symmetry. apply Ascii.eqb_refl.
  - assert (Hn : N_of_ascii a <> N_of_ascii b) by (intro E; apply Hab, Hinj, E).
    remember (N_of_ascii a) as x. remember (N_of_ascii b) as y.
    destruct (65 <=? x)%N eqn:E1; destruct (x <=? 90)%N eqn:E2;
      destruct (65 <=? y)%N eqn:E3; destruct (y <=? 90)%N eqn:E4; simpl;
      match goal with
      | |- _ = Ascii.eqb ?u ?v =>
          destruct (Ascii.eqb_spec u v) as [E|E];
          [ apply (f_equal N_of_ascii) in E
          | assert (N_of_ascii u <> N_of_ascii v) by (intro E'; apply E, Hinj, E') ]
      end;
      rewrite ?Hup in * by lia; subst;
      repeat match goal with
             | H : (_ <=? _)%N = true |- _ => apply N.leb_le in H
             | H : (_ <=? _)%N = false |- _ => apply N.leb_gt in H
             end;
      repeat match goal with
             | |- context [(?u <=? ?v)%N] => destruct (N.leb_spec u v)
             | |- context [(?u =? ?v)%N] => destruct (N.eqb_spec u v)
             end; simpl; try reflexivity; lia.
Qed.

Section NameMatching.
Context {rt : GoRuntime}.

(** [EqualFold] on ASCII strings is equality of the lower-case forms. *)
Lemma EqualFold_ascii (s t : string) :
  isASCII s = true -> isASCII t = true ->
  EqualFold s t = (lowerASCII s =? lowerASCII t).
Proof.
  revert t. induction s as [|a s IH]; intros [|b t] Hs Ht; simpl; try reflexivity.
  simpl in Hs, Ht.
  apply andb_true_iff in Hs as [Ha Hs]. apply andb_true_iff in Ht as [Hb Ht].
  apply N.ltb_lt in Ha, Hb.
  destruct (N.leb_spec 128 (byteVal a)); [lia|].
  destruct (N.leb_spec 128 (byteVal b)); [lia|]. simpl.
  rewrite (asciiFoldEq_lower a b Ha Hb), (IH t Hs Ht).
  reflexivity.
Qed.

(** The test [apiLabel == address] of [namesMatch] changes nothing. *)
Lemma namesMatch_unfold (apiName payloadName zone : string) :
  namesMatch apiName payloadName zone
  = EqualFold (TrimSuffix apiName ("." ++ zoneAddress zone)) payloadName
    || EqualFold apiName payloadName.
Proof.
  unfold namesMatch.
  destruct (String.eqb_spec (TrimSuffix apiName ("." ++ zoneAddress zone))
              (zoneAddress zone)) as [E|_]; [|reflexivity].
  now rewrite E.
Qed.

(** C3 (amended): [namesMatch] takes the zone's first label as address,
    strips an exact trailing ".address" from the provider's name to get a
    candidate label, and answers true exactly when the candidate label or
    the raw provider name equals the relative name up to case; a candidate
    label equal to the address is compared like any other.  On ASCII names
    the comparison is equality of lower-case forms, and "ACME.g" matches
    "acme" in "g.omg.lol.". *)
Theorem C3_namesMatch_rule (providerName relativeName zone : string) :
  let address := zoneAddress zone in
  let label := TrimSuffix providerName ("." ++ address) in
  namesMatch providerName relativeName zone
  = EqualFold label relativeName || EqualFold providerName relativeName
  /\ (forall a b : string,
        dotFree a = true ->
        TrimSuffix zone "." = (a ++ "." ++ b)%string -> address = a)
  /\ (dotFree (TrimSuffix zone ".") = true -> address = TrimSuffix zone ".")
  /\ (forall s t : string,
        isASCII s = true -> isASCII t = true ->
        EqualFold s t = (lowerASCII s =? lowerASCII t))
  /\ namesMatch "ACME.g" "acme" "g.omg.lol." = true.
Proof.
  cbv zeta. split; [apply namesMatch_unfold|].
  split; [intros a b; apply zoneAddress_first_label|].
  split; [apply zoneAddress_single_label|].
  split; [apply EqualFold_ascii | reflexivity].
Qed.

End NameMatching.

(** C3, as first stated, fails: in "g.omg.lol." the candidate label of the
    provider name "g" is the address "g", and [namesMatch] still answers
    false for the relative name "foo", on every runtime. *)
Lemma C3_apex_candidate_counterexample :
  TrimSuffix "g" ("." ++ zoneAddress "g.omg.lol.") = zoneAddress "g.omg.lol."
  /\ (fun rt : GoRuntime => @namesMatch rt "g" "foo" "g.omg.lol.")
     = (fun _ => false).
Proof. split; reflexivity. Qed.

(** The suffix ".address" is stripped only when it is spelled as the zone
    spells it. *)
Example namesMatch_suffix_exact :
  forall rt : GoRuntime, @namesMatch rt "acme.G" "acme" "g.omg.lol." = false.
Proof. reflexivity. Qed.

(** ** TTL of payloads and of listed records *)

Lemma quot_Second_small (t : Z) : t < Second -> Z.quot t Second <= 0.
Proof.
  unfold Second. intros H.
  destruct (Z.neg_nonneg_cases t) as [Hn|Hp].
  - rewrite <- (Z.opp_involutive t), Z.quot_opp_l by lia.
    pose proof (Z.quot_pos (- t) 1000000000). lia.
  - rewrite Z.quot_small; lia.
Qed.

Lemma quot_Second_large (t : Z) :
  Second <= t -> 0 < Z.quot t Second /\ Z.quot t Second = t / Second.
Proof.
  unfold Second. intros H. split.
  - apply Z.quot_str_pos. lia.
  - apply Z.quot_div_nonneg; lia.
Qed.

(** C9 (amended): the payload of a record carries 300 seconds when the
    record's TTL is below one second (zero, negative, or a positive
    fraction of a second) and the TTL's whole seconds otherwise; that
    payload is what [AppendRecords] sends in its create call and
    [SetRecords] in its update or create call. *)
Theorem C9_payload_ttl (rt : GoRuntime) (srv : Store) (p : Provider)
  (zone : string) (rr : RR) (h : list Call) :
  plTTL (libdnsRecordToPayload rr zone)
  = (if (rrTTL rr <? Second)%Z then 300 else rrTTL rr / Second)
  /\ snd (AppendRecords srv p zone [rr] h)
     = h ++ [CreateCall p (libdnsRecordToPayload rr zone)]
  /\ (forall existing : list omglolRecord,
        listReply srv h p = inr existing ->
        snd (SetRecords srv p zone [rr] h)
        = h ++ [ListCall p;
                match findMatched existing rr (libdnsRecordToPayload rr zone) zone with
                | Some matched =>
                    UpdateCall p (recordID matched) (libdnsRecordToPayload rr zone)
                | None => CreateCall p (libdnsRecordToPayload rr zone)
                end]).
Proof.
  split; [|split].
  - unfold libdnsRecordToPayload. simpl.
    destruct (Z.ltb_spec (rrTTL rr) Second) as [Hlt|Hge].
    + pose proof (quot_Second_small _ Hlt) as Hq.
      apply Z.leb_le in Hq. now rewrite Hq.
    + destruct (quot_Second_large _ Hge) as [Hpos Heq].
      destruct (Z.leb_spec (Z.quot (rrTTL rr) Second) 0); [lia | exact Heq].
  - unfold AppendRecords, appendLoop, bind, createRecord, ret.
    now destruct (createReply srv h p _).
  - intros existing Hlist.
    unfold SetRecords, bind, listRecords. rewrite Hlist.
    unfold setLoop, bind, updateRecord, createRecord, ret.
    destruct (findMatched existing rr _ zone) as [m|].
    + destruct (updateReply srv _ p _ _); simpl; now rewrite <- app_assoc.
    + destruct (createReply srv _ p _); simpl; now rewrite <- app_assoc.
Qed.

(** C9, as first stated, fails: half a second is a positive TTL whose whole
    seconds are 0, and the payload carries 300. *)
Lemma C9_subsecond_counterexample :
  0 < 500000000
  /\ Z.quot 500000000 Second = 0
  /\ plTTL (libdnsRecordToPayload
              {| rrName := "www"; rrTTL := 500000000; rrType := "A";
                 rrData := "192.0.2.1" |} "g.omg.lol.") = 300.
Proof. repeat split. Qed.

Section ListedTTL.
Context {rt : GoRuntime}.

(** [GetRecords] converts what the store lists, record by record and in the
    store's order. *)
Lemma GetRecords_listed (srv : Store) (p : Provider) (zone : string)
  (h : list Call) (raw : list omglolRecord) :
  listReply srv h p = inr raw ->
  GetRecords srv p zone h
  = (inr (map (fun r => toLibdnsRecord r zone) raw), h ++ [ListCall p]).
Proof.
  intros H. unfold GetRecords, bind, listRecords. now rewrite H.
Qed.

(** C8: a listed record's TTL is a whole number of seconds: the integral
    part of a JSON number, the value of a JSON string that [Atoi] parses,
    and 3600 for a string it does not parse and for every other shape of
    value.  The string "120" gives 120 seconds in the listed record, and
    [GetRecords] lists records with these TTLs. *)
Theorem C8_listed_ttl (r : omglolRecord) (zone : string) :
  ttlSeconds (withTTL r (VString "120")) = 120
  /\ rrTTL (toLibdnsRecord (withTTL r (VString "120")) zone) = 120 * Second
  /\ (forall s : string,
        Atoi s = None ->
        ttlSeconds (withTTL r (VString s)) = 3600
        /\ rrTTL (toLibdnsRecord (withTTL r (VString s)) zone) = 3600 * Second)
  /\ (forall (s : string) (n : Z),
        Atoi s = Some n -> ttlSeconds (withTTL r (VString s)) = n)
  /\ (forall v : GoValue,
        isNumberOrString v = false ->
        ttlSeconds (withTTL r v) = 3600
        /\ rrTTL (toLibdnsRecord (withTTL r v) zone) = 3600 * Second)
  /\ (forall (f : spec_float) (n : Z),
        truncFloat64 f = Some n -> inInt64 n = true ->
        ttlSeconds (withTTL r (VFloat64 f)) = n)
  /\ ttlSeconds (withTTL r (VFloat64 (float64OfZ 120))) = 120
  /\ (Atoi "soon" = None /\ Atoi "" = None /\ Atoi "1.5" = None
      /\ Atoi " 120" = None)
  /\ (forall (srv : Store) (p : Provider) (h : list Call) (raw : list omglolRecord),
        listReply srv h p = inr (map (fun e => withTTL e (VString "120")) raw) ->
        match fst (GetRecords srv p zone h) with
        | inr listed => map rrTTL listed = map (fun _ => 120 * Second) raw
        | inl _ => False
        end).
Proof.
  split; [reflexivity|]. split; [reflexivity|].
  split.
  { intros s Hs. unfold toLibdnsRecord, ttlSeconds. simpl. now rewrite Hs. }
  split.
  { intros s n Hs. unfold ttlSeconds. simpl. now rewrite Hs. }
  split.
  { intros v Hv. destruct v; try discriminate; split; reflexivity. }
  split.
  { intros f n Hf Hn. unfold ttlSeconds, float64ToInt. simpl.
    now rewrite Hf, Hn. }
  split; [reflexivity|].
  split; [repeat split|].
  intros srv p h raw Hlist.
  rewrite (GetRecords_listed srv p zone h _ Hlist). simpl.
  rewrite !map_map. apply map_ext. reflexivity.
Qed.

End ListedTTL.

(** ** The loops of the operations *)

Section Loops.
Context {rt : GoRuntime}.
Variable srv : Store.
Variable p : Provider.
Variable zone : string.

(** A loop run on [l1 ++ l2] is the loop on [l1] and then, if that returned
    no error, the loop on [l2] ([andThen]). *)
Lemma appendLoop_app (l1 l2 : list RR) (acc : list RR) (h : list Call) :
  appendLoop srv p zone (l1 ++ l2) acc h
  = andThen (appendLoop srv p zone l1 acc h) (appendLoop srv p zone l2).
Proof.
  revert acc h. induction l1 as [|r l1 IH]; intros acc h; simpl.
  - reflexivity.
  - unfold bind, createRecord.
    destruct (createReply srv h p _) as [err|created]; [reflexivity | apply IH].
Qed.

Lemma setLoop_app (existing : list omglolRecord) (l1 l2 : list RR)
  (acc : list RR) (h : list Call) :
  setLoop srv p zone existing (l1 ++ l2) acc h
  = andThen (setLoop srv p zone existing l1 acc h)
      (setLoop srv p zone existing l2).
Proof.
  revert acc h. induction l1 as [|r l1 IH]; intros acc h; simpl.
  - reflexivity.
  - destruct (findMatched existing r _ zone) as [m|];
      unfold bind, updateRecord, createRecord.
    + destruct (updateReply srv h p _ _) as [err|]; [reflexivity | apply IH].
    + destruct (createReply srv h p _) as [err|created]; [reflexivity | apply IH].
Qed.

Lemma deleteAll_app (t1 t2 : list omglolRecord) (acc : list RR) (h : list Call) :
  deleteAll srv p zone (t1 ++ t2) acc h
  = andThen (deleteAll srv p zone t1 acc h) (deleteAll srv p zone t2).
Proof.
  revert acc h. induction t1 as [|e t1 IH]; intros acc h; simpl.
  - reflexivity.
  - unfold bind, deleteRecord.
    destruct (deleteReply srv h p _) as [err|]; [reflexivity | apply IH].
Qed.

(** The scan of [DeleteRecords] for one input record deletes the existing
    records that [deleteMatches] selects, in their order. *)
Lemma deleteScan_filter (record : RR) (existing : list omglolRecord)
  (acc : list RR) (h : list Call) :
  deleteScan srv p zone record (libdnsRecordToPayload record zone) existing acc h
  = deleteAll srv p zone (filter (deleteMatches zone record) existing) acc h.
Proof.
  revert acc h. induction existing as [|e rest IH]; intros acc h.
  - reflexivity.
  - cbn [deleteScan filter]. unfold deleteMatches at 1.
    destruct (EqualFold (recType e) (rrType record)); cbn [negb andb];
      [|apply IH].
    destruct (namesMatch (recName e) _ zone); cbn [negb andb]; [|apply IH].
    destruct (rrData record =? ""); cbn [negb andb orb].
    + cbn [deleteAll]. unfold bind, deleteRecord.
      destruct (deleteReply srv h p _); [reflexivity | apply IH].
    + destruct (recData e =? rrData record); cbn [negb].
      * cbn [deleteAll]. unfold bind, deleteRecord.
        destruct (deleteReply srv h p _); [reflexivity | apply IH].
      * apply IH.
Qed.

Lemma deleteLoop_targets (existing : list omglolRecord) (records : list RR)
  (acc : list RR) (h : list Call) :
  deleteLoop srv p zone existing records acc h
  = deleteAll srv p zone (deleteTargets zone existing records) acc h.
Proof.
  revert acc h. induction records as [|r records IH]; intros acc h.
  - reflexivity.
  - cbn [deleteLoop]. unfold deleteTargets. cbn [flat_map].
    rewrite deleteAll_app. unfold bind. rewrite deleteScan_filter.
    destruct (deleteAll srv p zone (filter _ existing) acc h)
      as [[res [err|]] h1]; cbn [andThen ret]; [reflexivity | apply IH].
Qed.

(** [DeleteRecords] lists once and then deletes its targets. *)
Lemma DeleteRecords_targets (records : list RR) (h : list Call)
  (existing : list omglolRecord) :
  listReply srv h p = inr existing ->
  DeleteRecords srv p zone records h
  = deleteAll srv p zone (deleteTargets zone existing records) []
      (h ++ [ListCall p]).
Proof.
  intros H. unfold DeleteRecords, bind, listRecords. rewrite H.
  apply deleteLoop_targets.
Qed.

(** When every delete call is accepted, all targets are deleted. *)
Lemma deleteAll_succeed (targets : list omglolRecord) (acc : list RR)
  (h : list Call) :
  deletesSucceed srv p h targets ->
  deleteAll srv p zone targets acc h
  = ((acc ++ map (fun e => toLibdnsRecord e zone) targets, None),
     h ++ map (deleteCallOf p) targets).
Proof.
  revert acc h. induction targets as [|e rest IH]; intros acc h Hok.
  - simpl. unfold ret. now rewrite !app_nil_r.
  - destruct Hok as [He Hrest]. cbn [deleteAll map].
    unfold bind, deleteRecord. rewrite He.
    rewrite (IH _ _ Hrest). unfold deleteCallOf.
    now rewrite <- !app_assoc.
Qed.

(** When the delete call for [e] is the first one refused, the targets
    before [e] are deleted and nothing is done after it. *)
Lemma deleteAll_fail (done rest : list omglolRecord) (e : omglolRecord)
  (err : error) (acc : list RR) (h : list Call) :
  deletesSucceed srv p h done ->
  deleteReply srv (h ++ map (deleteCallOf p) done) p (recordID e) = Some err ->
  deleteAll srv p zone (done ++ e :: rest) acc h
  = ((acc ++ map (fun x => toLibdnsRecord x zone) done, Some err),
     h ++ map (deleteCallOf p) done ++ [deleteCallOf p e]).
Proof.
  intros Hok Hfail.
  rewrite deleteAll_app, (deleteAll_succeed done acc h Hok). cbn [andThen deleteAll].
  unfold bind, deleteRecord. rewrite Hfail. unfold ret, deleteCallOf.
  now rewrite <- app_assoc.
Qed.

(** With no existing record [SetRecords]'s loop is [AppendRecords]'s. *)
Lemma setLoop_nil_existing (records : list RR) (acc : list RR) (h : list Call) :
  setLoop srv p zone [] records acc h = appendLoop srv p zone records acc h.
Proof.
  revert acc h. induction records as [|r records IH]; intros acc h; simpl.
  - reflexivity.
  - unfold bind, createRecord.
    destruct (createReply srv h p _); [reflexivity | apply IH].
Qed.

(** The calls of [AppendRecords]'s loop are create calls for a prefix of
    the input, the whole input when no error is returned. *)
Lemma appendLoop_calls (records : list RR) (acc : list RR) (h : list Call) :
  exists k : nat,
    (k <= length records)%nat
    /\ snd (appendLoop srv p zone records acc h)
       = h ++ map (createCallOf p zone) (firstn k records)
    /\ (snd (fst (appendLoop srv p zone records acc h)) = None ->
        k = length records).
Proof.
  revert acc h. induction records as [|r records IH]; intros acc h.
  - exists 0%nat. simpl. rewrite app_nil_r. auto.
  - cbn [appendLoop]. unfold bind, createRecord.
    destruct (createReply srv h p _) as [err|created].
    + exists 1%nat. simpl. repeat split; [lia | discriminate].
    + destruct (IH (acc ++ [toLibdnsRecord created zone])
                  (h ++ [CreateCall p (libdnsRecordToPayload r zone)]))
        as (k & Hk & Hcalls & Hall).
      exists (S k). simpl. repeat split.
      * lia.
      * rewrite Hcalls, <- app_assoc. reflexivity.
      * intros Hnone. now rewrite (Hall Hnone).
Qed.

End Loops.

(** ** Set: the update scenario and the empty store *)

(** C1: in "g.omg.lol.", with the store listing the one TXT record
    "_acme-challenge.g" of ID 1, [SetRecords] on the TXT record
    "_acme-challenge" with data "new" and a TTL of 300 seconds makes one list
    call and one update call (ID "1", payload TXT, "_acme-challenge", "new",
    300) and no create call; the record it returns has the payload's name,
    type and data, and a TTL of 3600 seconds: the TTL it reads back is the
    [int] it stored itself, which [ttlSeconds] does not recognise. *)
Theorem C1_set_updates_existing (rt : GoRuntime) (srv : Store) (p : Provider)
  (h : list Call) (priority : option Z) (ttl : GoValue) :
  let zone := "g.omg.lol." in
  let existing :=
    {| recID := VFloat64 (float64OfZ 1); recType := "TXT";
       recName := "_acme-challenge.g"; recData := "old";
       recPriority := priority; recTTL := ttl |} in
  let input :=
    {| rrName := "_acme-challenge"; rrTTL := 300 * Second; rrType := "TXT";
       rrData := "new" |} in
  let payload :=
    {| plType := "TXT"; plName := "_acme-challenge"; plData := "new";
       plTTL := 300 |} in
  listReply srv h p = inr [existing] ->
  updateReply srv (h ++ [ListCall p]) p "1" payload = None ->
  let run := SetRecords srv p zone [input] h in
  fst run
  = ([{| rrName := "_acme-challenge"; rrTTL := 3600 * Second; rrType := "TXT";
         rrData := "new" |}], None)
  /\ snd run = h ++ [ListCall p; UpdateCall p "1" payload]
  /\ filter isUpdateCall (skipn (length h) (snd run)) = [UpdateCall p "1" payload]
  /\ filter isCreateCall (skipn (length h) (snd run)) = [].
Proof.
  intros zone existing input payload Hlist Hupdate run.
  assert (Hrun : run
    = (([{| rrName := "_acme-challenge"; rrTTL := 3600 * Second; rrType := "TXT";
            rrData := "new" |}], None),
       h ++ [ListCall p; UpdateCall p "1" payload])).
  { unfold run, SetRecords, bind, listRecords. rewrite Hlist.
    cbn [setLoop].
    change (libdnsRecordToPayload input zone) with payload.
    change (findMatched [existing] input payload zone) with (Some existing).
    unfold bind, updateRecord.
    change (recordID existing) with "1". rewrite Hupdate.
    unfold ret. rewrite <- app_assoc. reflexivity. }
  rewrite Hrun. cbn [fst snd].
  assert (Hskip : skipn (length h) (h ++ [ListCall p; UpdateCall p "1" payload])
                  = [ListCall p; UpdateCall p "1" payload]).
  { rewrite skipn_app, skipn_all, Nat.sub_diag. reflexivity. }
  rewrite Hskip. repeat split.
Qed.

Lemma C1_set_updates_existing_witness :
  SetRecords (rt := asciiRuntime)
    (budgetStore
       [{| recID := VFloat64 (float64OfZ 1); recType := "TXT";
           recName := "_acme-challenge.g"; recData := "old";
           recPriority := None; recTTL := VNil |}] 2)
    demoProvider "g.omg.lol."
    [{| rrName := "_acme-challenge"; rrTTL := 300 * Second; rrType := "TXT";
        rrData := "new" |}] []
  = (([{| rrName := "_acme-challenge"; rrTTL := 3600 * Second; rrType := "TXT";
          rrData := "new" |}], None),
     [ListCall demoProvider;
      UpdateCall demoProvider "1"
        {| plType := "TXT"; plName := "_acme-challenge"; plData := "new";
           plTTL := 300 |}]).
Proof.
  pose proof (C1_set_updates_existing asciiRuntime
                (budgetStore
                   [{| recID := VFloat64 (float64OfZ 1); recType := "TXT";
                       recName := "_acme-challenge.g"; recData := "old";
                       recPriority := None; recTTL := VNil |}] 2)
                demoProvider [] None VNil eq_refl eq_refl) as H.
  cbv zeta in H. destruct H as (Hres & Hcalls & _).
  apply injective_projections; [exact Hres | exact Hcalls].
Defined.

(** When the store answers create calls without regard to the history,
    [AppendRecords]'s loop gathers the same records and makes the same
    calls from any history. *)
Lemma appendLoop_any_history (rt : GoRuntime) (srv : Store) (p : Provider)
  (zone : string) :
  (forall (h1 h2 : list Call) (payload : omglolRecordPayload),
     createReply srv h1 p payload = createReply srv h2 p payload) ->
  forall (records acc : list RR) (h h' : list Call),
    fst (appendLoop srv p zone records acc h)
    = fst (appendLoop srv p zone records acc h')
    /\ exists calls : list Call,
         snd (appendLoop srv p zone records acc h) = h ++ calls
         /\ snd (appendLoop srv p zone records acc h') = h' ++ calls.
Proof.
  intros Hind records.
  induction records as [|r records IH]; intros acc h h'.
  - split; [reflexivity|]. exists []. simpl. now rewrite !app_nil_r.
  - cbn [appendLoop]. unfold bind, createRecord.
    rewrite (Hind h' h). destruct (createReply srv h p _) as [err|created].
    + split; [reflexivity|]. now exists [createCallOf p zone r].
    + destruct (IH (acc ++ [toLibdnsRecord created zone])
                  (h ++ [CreateCall p (libdnsRecordToPayload r zone)])
                  (h' ++ [CreateCall p (libdnsRecordToPayload r zone)]))
        as (Hfst & calls & Hc & Hc').
      split; [exact Hfst|].
      exists (createCallOf p zone r :: calls).
      rewrite Hc, Hc', <- !app_assoc. now split.
Qed.

(** C5: when the store lists no record, [SetRecords] is [AppendRecords] run
    after the list call: the same outcome and the same calls, which are
    create calls for the input records in order, all of them unless a create
    call fails.  When the store answers create calls without regard to the
    history, [SetRecords] returns what [AppendRecords] returns from the same
    history, and makes the same calls after its list call. *)
Theorem C5_set_on_empty_is_append (rt : GoRuntime) (srv : Store) (p : Provider)
  (zone : string) (records : list RR) (h : list Call) :
  listReply srv h p = inr [] ->
  SetRecords srv p zone records h
  = AppendRecords srv p zone records (h ++ [ListCall p])
  /\ (exists k : nat,
        (k <= length records)%nat
        /\ snd (SetRecords srv p zone records h)
           = h ++ ListCall p :: map (createCallOf p zone) (firstn k records)
        /\ (snd (fst (SetRecords srv p zone records h)) = None ->
            k = length records))
  /\ ((forall (h1 h2 : list Call) (payload : omglolRecordPayload),
         createReply srv h1 p payload = createReply srv h2 p payload) ->
      fst (SetRecords srv p zone records h)
      = fst (AppendRecords srv p zone records h)
      /\ exists calls : list Call,
           snd (AppendRecords srv p zone records h) = h ++ calls
           /\ snd (SetRecords srv p zone records h) = h ++ ListCall p :: calls).
Proof.
  intros Hlist.
  assert (Heq : SetRecords srv p zone records h
                = AppendRecords srv p zone records (h ++ [ListCall p])).
  { unfold SetRecords, AppendRecords, bind, listRecords. rewrite Hlist.
    apply setLoop_nil_existing. }
  split; [exact Heq|]. rewrite Heq. unfold AppendRecords. split.
  - destruct (appendLoop_calls srv p zone records [] (h ++ [ListCall p]))
      as (k & Hk & Hcalls & Hall).
    exists k. repeat split; [exact Hk | | exact Hall].
    rewrite Hcalls, <- app_assoc. reflexivity.
  - intros Hind.
    destruct (appendLoop_any_history rt srv p zone Hind records []
                (h ++ [ListCall p]) h) as (Hfst & calls & Hc & Hc').
    split; [exact Hfst|]. exists calls. split; [exact Hc'|].
    rewrite Hc, <- app_assoc. reflexivity.
Qed.

Lemma C5_set_on_empty_is_append_witness :
  let records :=
    [{| rrName := "www"; rrTTL := 60 * Second; rrType := "A";
        rrData := "192.0.2.1" |};
     {| rrName := "@"; rrTTL := 0; rrType := "TXT"; rrData := "hello" |}] in
  SetRecords (rt := asciiRuntime) (budgetStore [] 5) demoProvider "g.omg.lol."
    records []
  = AppendRecords (rt := asciiRuntime) (budgetStore [] 5) demoProvider
      "g.omg.lol." records [ListCall demoProvider].
Proof.
  exact (proj1 (C5_set_on_empty_is_append asciiRuntime (budgetStore [] 5)
                  demoProvider "g.omg.lol." _ [] eq_refl)).
Defined.

(** ** Delete *)

Section DeleteFacts.
Context {rt : GoRuntime}.
Variable zone : string.

(** What [deleteMatches] selects for one input record. *)
Lemma deleteTargets_single (existing : list omglolRecord) (record : RR)
  (e : omglolRecord) :
  deleteTargets zone existing [record] = filter (deleteMatches zone record) existing
  /\ (In e (deleteTargets zone existing [record]) <->
      In e existing
      /\ EqualFold (recType e) (rrType record) = true
      /\ namesMatch (recName e) (plName (libdnsRecordToPayload record zone)) zone
         = true
      /\ (rrData record = "" \/ recData e = rrData record)).
Proof.
  assert (H : deleteTargets zone existing [record]
              = filter (deleteMatches zone record) existing).
  { unfold deleteTargets. simpl. apply app_nil_r. }
  split; [exact H|]. rewrite H, filter_In. unfold deleteMatches.
  rewrite !andb_true_iff, orb_true_iff, !String.eqb_eq. tauto.
Qed.

Lemma deleteTargets_app (existing : list omglolRecord) (l1 l2 : list RR) :
  deleteTargets zone existing (l1 ++ l2)
  = deleteTargets zone existing l1 ++ deleteTargets zone existing l2.
Proof. unfold deleteTargets. apply flat_map_app. Qed.

(** With one existing record, the targets repeat it once per input record
    that matches it. *)
Lemma deleteTargets_one_existing (e : omglolRecord) (records : list RR) :
  deleteTargets zone [e] records
  = repeat e (length (filter (fun record => deleteMatches zone record e) records)).
Proof.
  induction records as [|r records IH]; [reflexivity|].
  change (deleteTargets zone [e] (r :: records))
    with (filter (deleteMatches zone r) [e] ++ deleteTargets zone [e] records).
  rewrite IH. simpl. now destruct (deleteMatches zone r e).
Qed.

(** An existing record is among the targets at least once per input record
    that matches it, and so is its image under any [f]. *)
Lemma deleteTargets_count {B : Type} (eq_dec : forall x y : B, {x = y} + {x <> y})
  (f : omglolRecord -> B) (existing : list omglolRecord) (e : omglolRecord)
  (records : list RR) :
  In e existing ->
  (length (filter (fun record => deleteMatches zone record e) records)
   <= count_occ eq_dec (map f (deleteTargets zone existing records)) (f e))%nat.
Proof.
  intros He. induction records as [|r records IH]; [simpl; lia|].
  change (deleteTargets zone existing (r :: records))
    with (filter (deleteMatches zone r) existing
          ++ deleteTargets zone existing records).
  rewrite map_app, count_occ_app. simpl.
  destruct (deleteMatches zone r e) eqn:Hm; [|lia].
  assert (Hin : In (f e) (map f (filter (deleteMatches zone r) existing))).
  { apply in_map, filter_In. auto. }
  apply (count_occ_In eq_dec) in Hin. simpl. lia.
Qed.

End DeleteFacts.

(** [DeleteRecords] when the store accepts the delete calls: the records
    returned and the calls made. *)
Lemma DeleteRecords_accepted (rt : GoRuntime) (srv : Store) (p : Provider)
  (zone : string) (records : list RR) (h : list Call)
  (existing : list omglolRecord) :
  listReply srv h p = inr existing ->
  deletesSucceed srv p (h ++ [ListCall p]) (deleteTargets zone existing records) ->
  fst (fst (DeleteRecords srv p zone records h))
  = map (fun e => toLibdnsRecord e zone) (deleteTargets zone existing records)
  /\ snd (DeleteRecords srv p zone records h)
     = h ++ ListCall p :: map (deleteCallOf p) (deleteTargets zone existing records).
Proof.
  intros Hlist Hok.
  rewrite (DeleteRecords_targets srv p zone records h existing Hlist).
  rewrite (deleteAll_succeed srv p zone _ [] _ Hok).
  rewrite <- app_assoc. split; reflexivity.
Qed.

(** C6: when the store accepts the delete calls, [DeleteRecords] deletes,
    for each input record in turn, every existing record whose type equals
    the input's up to case, whose name matches it by [namesMatch] and, when
    the input has data, whose data is the same; it makes one delete call per
    such record and returns them in the order of the existing records. *)
Theorem C6_delete_every_match (rt : GoRuntime) (srv : Store) (p : Provider)
  (zone : string) (records : list RR) (h : list Call)
  (existing : list omglolRecord) :
  listReply srv h p = inr existing ->
  deletesSucceed srv p (h ++ [ListCall p]) (deleteTargets zone existing records) ->
  DeleteRecords srv p zone records h
  = ((map (fun e => toLibdnsRecord e zone) (deleteTargets zone existing records),
      None),
     h ++ ListCall p :: map (deleteCallOf p) (deleteTargets zone existing records))
  /\ (forall record : RR,
        deleteTargets zone existing [record]
        = filter (deleteMatches zone record) existing)
  /\ (forall (record : RR) (e : omglolRecord),
        In e (deleteTargets zone existing [record]) <->
        In e existing
        /\ EqualFold (recType e) (rrType record) = true
        /\ namesMatch (recName e) (plName (libdnsRecordToPayload record zone)) zone
           = true
        /\ (rrData record = "" \/ recData e = rrData record)).
Proof.
  intros Hlist Hok. split; [|split].
  - rewrite (DeleteRecords_targets srv p zone records h existing Hlist).
    rewrite (deleteAll_succeed srv p zone _ [] _ Hok).
    rewrite <- app_assoc. reflexivity.
  - intros record. apply (deleteTargets_single zone existing record
                            (echoRecord 0 (libdnsRecordToPayload record zone))).
  - intros record e. apply deleteTargets_single.
Qed.

(** Two existing TXT records named "_acme-challenge.g", and an input
    record without data: both are deleted, in the order of the store. *)
Lemma C6_delete_every_match_witness :
  let first :=
    {| recID := VFloat64 (float64OfZ 7); recType := "TXT";
       recName := "_acme-challenge.g"; recData := "one";
       recPriority := None; recTTL := VFloat64 (float64OfZ 60) |} in
  let second :=
    {| recID := VString "8"; recType := "txt";
       recName := "_acme-challenge.g"; recData := "two";
       recPriority := None; recTTL := VString "120" |} in
  DeleteRecords (rt := asciiRuntime) (budgetStore [first; second] 3)
    demoProvider "g.omg.lol."
    [{| rrName := "_acme-challenge"; rrTTL := 0; rrType := "TXT"; rrData := "" |}]
    []
  = (([{| rrName := "_acme-challenge.g"; rrTTL := 60 * Second; rrType := "TXT";
          rrData := "one" |};
       {| rrName := "_acme-challenge.g"; rrTTL := 120 * Second; rrType := "txt";
          rrData := "two" |}], None),
     [ListCall demoProvider; DeleteCall demoProvider "7";
      DeleteCall demoProvider "8"]).
Proof.
  intros first second.
  exact (proj1 (C6_delete_every_match asciiRuntime
                  (budgetStore [first; second] 3) demoProvider "g.omg.lol."
                  [{| rrName := "_acme-challenge"; rrTTL := 0; rrType := "TXT";
                      rrData := "" |}] [] [first; second] eq_refl
                  (conj eq_refl (conj eq_refl I)))).
Defined.

(** C10: [DeleteRecords] matches every input record against the list it
    fetched at the start.  When the store accepts the delete calls, an
    existing record is deleted once for each input record that matches it:
    that many delete calls carry its ID and that many copies of it are
    returned, at least, and exactly that many when it is the only existing
    record. *)
Theorem C10_delete_once_per_matching_input (rt : GoRuntime) (srv : Store)
  (p : Provider) (zone : string) (records : list RR) (h : list Call)
  (existing : list omglolRecord) (e : omglolRecord) :
  listReply srv h p = inr existing ->
  deletesSucceed srv p (h ++ [ListCall p]) (deleteTargets zone existing records) ->
  In e existing ->
  let n := length (filter (fun record => deleteMatches zone record e) records) in
  let run := DeleteRecords srv p zone records h in
  (n <= count_occ Call_eq_dec (skipn (length h) (snd run)) (deleteCallOf p e))%nat
  /\ (n <= count_occ RR_eq_dec (fst (fst run)) (toLibdnsRecord e zone))%nat
  /\ (existing = [e] ->
      fst (fst run) = repeat (toLibdnsRecord e zone) n
      /\ snd run = h ++ ListCall p :: repeat (deleteCallOf p e) n).
Proof.
  intros Hlist Hok He n run.
  destruct (DeleteRecords_accepted rt srv p zone records h existing Hlist Hok)
    as [Hres Hcalls].
  fold run in Hres, Hcalls. rewrite Hres, Hcalls.
  split; [|split].
  - rewrite skipn_app, skipn_all, Nat.sub_diag. simpl.
    apply (deleteTargets_count zone Call_eq_dec (deleteCallOf p) existing e
             records He).
  - apply (deleteTargets_count zone RR_eq_dec (fun x => toLibdnsRecord x zone)
             existing e records He).
  - intros ->. rewrite deleteTargets_one_existing. fold n.
    now rewrite !map_repeat.
Qed.

(** One existing record and two input records that both match it: two
    delete calls for its ID, and the record returned twice. *)
Lemma C10_delete_once_per_matching_input_witness :
  let only :=
    {| recID := VFloat64 (float64OfZ 7); recType := "TXT";
       recName := "_acme-challenge.g"; recData := "one";
       recPriority := None; recTTL := VFloat64 (float64OfZ 60) |} in
  let run :=
    DeleteRecords (rt := asciiRuntime) (budgetStore [only] 3) demoProvider
      "g.omg.lol."
      [{| rrName := "_acme-challenge"; rrTTL := 0; rrType := "TXT"; rrData := "" |};
       {| rrName := "_ACME-challenge"; rrTTL := 0; rrType := "txt";
          rrData := "one" |}] [] in
  fst (fst run)
  = repeat {| rrName := "_acme-challenge.g"; rrTTL := 60 * Second;
              rrType := "TXT"; rrData := "one" |} 2
  /\ snd run
     = ListCall demoProvider :: repeat (DeleteCall demoProvider "7") 2.
Proof.
  intros only run.
  exact (proj2 (proj2
    (C10_delete_once_per_matching_input asciiRuntime (budgetStore [only] 3)
       demoProvider "g.omg.lol."
       [{| rrName := "_acme-challenge"; rrTTL := 0; rrType := "TXT";
           rrData := "" |};
        {| rrName := "_ACME-challenge"; rrTTL := 0; rrType := "txt";
           rrData := "one" |}] [] [only] only eq_refl
       (conj eq_refl (conj eq_refl I)) (or_introl eq_refl))) eq_refl).
Defined.

(** ** Failure of a store call *)

Lemma andThen_error (first : Outcome * list Call)
  (next : list RR -> Client Outcome) :
  snd (fst first) <> None -> andThen first next = first.
Proof.
  destruct first as [[res [err|]] h1]; simpl; [reflexivity | congruence].
Qed.

(** C7: [AppendRecords], [SetRecords] and [DeleteRecords] stop at the first
    store call that fails.  When the records before [r] were processed
    without error and the call made for [r] fails, the operation returns
    that error with the records gathered before it, and its last call is
    the failing one: no call undoes an earlier one and none is made for
    what follows.  A failing list call returns the error with no record.
    For [DeleteRecords] the same holds target by target.  Once an error is
    returned, a longer input changes nothing. *)
Theorem C7_stop_at_first_failure (rt : GoRuntime) (srv : Store) (p : Provider)
  (zone : string) (h : list Call) :
  (forall (l1 l2 : list RR) (r : RR) (res : list RR) (h1 : list Call) (err : error),
     AppendRecords srv p zone l1 h = ((res, None), h1) ->
     createReply srv h1 p (libdnsRecordToPayload r zone) = inl err ->
     AppendRecords srv p zone (l1 ++ r :: l2) h
     = ((res, Some err), h1 ++ [createCallOf p zone r]))
  /\ (forall (records : list RR) (err : error),
        listReply srv h p = inl err ->
        SetRecords srv p zone records h = (([], Some err), h ++ [ListCall p])
        /\ DeleteRecords srv p zone records h
           = (([], Some err), h ++ [ListCall p]))
  /\ (forall (existing : list omglolRecord) (l1 l2 : list RR) (r : RR)
        (res : list RR) (h1 : list Call) (err : error),
        listReply srv h p = inr existing ->
        SetRecords srv p zone l1 h = ((res, None), h1) ->
        callError srv h1 (setCallOf p zone existing r) = Some err ->
        SetRecords srv p zone (l1 ++ r :: l2) h
        = ((res, Some err), h1 ++ [setCallOf p zone existing r]))
  /\ (forall (existing done rest : list omglolRecord) (e : omglolRecord)
        (records : list RR) (err : error),
        listReply srv h p = inr existing ->
        deleteTargets zone existing records = done ++ e :: rest ->
        deletesSucceed srv p (h ++ [ListCall p]) done ->
        deleteReply srv (h ++ ListCall p :: map (deleteCallOf p) done) p
          (recordID e) = Some err ->
        DeleteRecords srv p zone records h
        = ((map (fun x => toLibdnsRecord x zone) done, Some err),
           h ++ ListCall p :: map (deleteCallOf p) done ++ [deleteCallOf p e]))
  /\ (forall l l2 : list RR,
        (snd (fst (AppendRecords srv p zone l h)) <> None ->
         AppendRecords srv p zone (l ++ l2) h = AppendRecords srv p zone l h)
        /\ (snd (fst (SetRecords srv p zone l h)) <> None ->
            SetRecords srv p zone (l ++ l2) h = SetRecords srv p zone l h)
        /\ (snd (fst (DeleteRecords srv p zone l h)) <> None ->
            DeleteRecords srv p zone (l ++ l2) h = DeleteRecords srv p zone l h)).
Proof.
  split; [|split; [|split; [|split]]].
  - intros l1 l2 r res h1 err Hdone Hfail.
    unfold AppendRecords in *. rewrite appendLoop_app, Hdone.
    cbn [andThen appendLoop]. unfold bind, createRecord. now rewrite Hfail.
  - intros records err Hlist.
    unfold SetRecords, DeleteRecords, bind, listRecords. now rewrite Hlist.
  - intros existing l1 l2 r res h1 err Hlist Hdone Hfail.
    unfold SetRecords, bind, listRecords in *. rewrite Hlist in *.
    rewrite setLoop_app, Hdone. cbn [andThen setLoop].
    unfold setCallOf in *.
    destruct (findMatched existing r _ zone) as [m|]; simpl in Hfail;
      unfold bind, updateRecord, createRecord.
    + now rewrite Hfail.
    + destruct (createReply srv h1 p _) as [e'|]; [|discriminate].
      now inversion Hfail.
  - intros existing done rest e records err Hlist Htargets Hok Hfail.
    rewrite (DeleteRecords_targets srv p zone records h existing Hlist), Htargets.
    rewrite (deleteAll_fail srv p zone done rest e err [] (h ++ [ListCall p]) Hok).
    + now rewrite <- app_assoc.
    + now rewrite <- app_assoc.
  - intros l l2. split; [|split].
    + intros Herr. unfold AppendRecords in *.
      rewrite appendLoop_app. now apply andThen_error.
    + unfold SetRecords, bind, listRecords.
      destruct (listReply srv h p) as [e|existing]; [reflexivity|].
      intros Herr. rewrite setLoop_app. now apply andThen_error.
    + unfold DeleteRecords, bind, listRecords.
      destruct (listReply srv h p) as [e|existing]; [reflexivity|].
      intros Herr. rewrite !deleteLoop_targets in *.
      rewrite deleteTargets_app, deleteAll_app. now apply andThen_error.
Qed.

(** A store that refuses its second call, with three records to append: the
    first record is returned with the error, and there is no third call.  A
    store that refuses its third call: [SetRecords] returns the record it
    updated and the error of its create call; [DeleteRecords] returns the
    first of two matching records and the error of its second delete
    call. *)
Lemma C7_stop_at_first_failure_witness :
  let zone := "g.omg.lol." in
  let refused := StatusError 500 "" in
  let a := {| rrName := "a"; rrTTL := 60 * Second; rrType := "A";
              rrData := "192.0.2.1" |} in
  let b := {| rrName := "b"; rrTTL := 60 * Second; rrType := "A";
              rrData := "192.0.2.2" |} in
  let c := {| rrName := "c"; rrTTL := 60 * Second; rrType := "A";
              rrData := "192.0.2.3" |} in
  let e1 := {| recID := VFloat64 (float64OfZ 7); recType := "A";
               recName := "a.g"; recData := "192.0.2.7";
               recPriority := None; recTTL := VFloat64 (float64OfZ 60) |} in
  let e2 := {| recID := VFloat64 (float64OfZ 8); recType := "A";
               recName := "a.g"; recData := "192.0.2.8";
               recPriority := None; recTTL := VFloat64 (float64OfZ 60) |} in
  let anyA := {| rrName := "a"; rrTTL := 0; rrType := "A"; rrData := "" |} in
  AppendRecords (rt := asciiRuntime) (budgetStore [] 1) demoProvider zone
    ([a] ++ b :: [c]) []
  = (([a], Some refused),
     [createCallOf demoProvider zone a; createCallOf demoProvider zone b])
  /\ SetRecords (rt := asciiRuntime) (budgetStore [e1] 2) demoProvider zone
       ([a] ++ b :: [c]) []
     = (([{| rrName := "a"; rrTTL := 3600 * Second; rrType := "A";
             rrData := "192.0.2.1" |}], Some refused),
        [ListCall demoProvider;
         UpdateCall demoProvider "7" (libdnsRecordToPayload a zone);
         createCallOf demoProvider zone b])
  /\ DeleteRecords (rt := asciiRuntime) (budgetStore [e1; e2] 2) demoProvider
       zone [anyA; b] []
     = (([toLibdnsRecord (rt := asciiRuntime) e1 zone], Some refused),
        [ListCall demoProvider; DeleteCall demoProvider "7";
         DeleteCall demoProvider "8"]).
Proof.
  intros zone refused a b c e1 e2 anyA.
  split; [|split].
  - exact (proj1 (C7_stop_at_first_failure asciiRuntime (budgetStore [] 1)
                    demoProvider zone [])
             [a] [c] b [a] [createCallOf demoProvider zone a]
             refused eq_refl eq_refl).
  - exact (proj1 (proj2 (proj2
             (C7_stop_at_first_failure asciiRuntime (budgetStore [e1] 2)
                demoProvider zone [])))
             [e1] [a] [c] b
             [{| rrName := "a"; rrTTL := 3600 * Second; rrType := "A";
                 rrData := "192.0.2.1" |}]
             [ListCall demoProvider;
              UpdateCall demoProvider "7" (libdnsRecordToPayload a zone)]
             refused eq_refl eq_refl eq_refl).
  - exact (proj1 (proj2 (proj2 (proj2
             (C7_stop_at_first_failure asciiRuntime (budgetStore [e1; e2] 2)
                demoProvider zone []))))
             [e1; e2] [e1] [] e2 [anyA; b] refused eq_refl eq_refl
             (conj eq_refl I) eq_refl).
Defined.

(** * Further properties of the name translation *)

Lemma takeStr_dropStr (n : nat) (s : string) :
  (n <= String.length s)%nat -> s = (takeStr n s ++ dropStr n s)%string.
Proof.
  unfold takeStr, dropStr. revert s.
  induction n as [|n IH]; intros s Hn.
  - rewrite Nat.sub_0_r, substring_all. now destruct s.
  - destruct s as [|c s]; simpl in Hn; [lia|].
    simpl. f_equal. apply IH. lia.
Qed.

(** A string that has a suffix is what [TrimSuffix] leaves, followed by the
    suffix. *)
Lemma HasSuffix_split (s suffix : string) :
  HasSuffix s suffix = true -> s = (TrimSuffix s suffix ++ suffix)%string.
Proof.
  intros H. unfold TrimSuffix. rewrite H.
  unfold HasSuffix in H. apply andb_true_iff in H as [Hlen Heq].
  apply Nat.leb_le in Hlen. apply String.eqb_eq in Heq.
  pose proof (takeStr_dropStr (String.length s - String.length suffix) s) as Hs.
  rewrite Heq in Hs. apply Hs. lia.
Qed.

Lemma TrimSuffix_self (s : string) : TrimSuffix s s = "".
Proof. exact (TrimSuffix_app "" s). Qed.

Lemma TrimSuffix_empty (suffix : string) : TrimSuffix "" suffix = "".
Proof. unfold TrimSuffix. destruct (HasSuffix "" suffix); reflexivity. Qed.

(** The three trims on a name that spells the zone out after a label. *)
Lemma trimRelative_absolute (label zone : string) :
  wellFormedZone zone = true ->
  trimRelative (label ++ "." ++ zone) zone = label.
Proof.
  unfold wellFormedZone. intros Hwf.
  apply andb_true_iff in Hwf as [Hz Hdot].
  apply negb_true_iff in Hz, Hdot. apply String.eqb_neq in Hz.
  unfold trimRelative.
  set (zt := TrimSuffix zone ".") in *.
  assert (Hlen : (String.length "." <= String.length zt)%nat).
  { destruct zt; [congruence | simpl; lia]. }
  assert (Hs1 : TrimSuffix (label ++ "." ++ zone) "." = (label ++ "." ++ zt)%string).
  { destruct (HasSuffix zone ".") eqn:Hz'.
    - rewrite (HasSuffix_split zone "." Hz') at 1. fold zt.
      rewrite <- !app_assoc_str. apply TrimSuffix_app.
    - assert (Ezt : zt = zone) by (unfold zt, TrimSuffix; now rewrite Hz').
      rewrite Ezt in *. apply TrimSuffix_absent.
      rewrite <- app_assoc_str, HasSuffix_app_r by exact Hlen. exact Hdot. }
  rewrite Hs1, <- app_assoc_str, TrimSuffix_app. apply TrimSuffix_app.
Qed.

(** X1: whatever the record and the zone, the record [toLibdnsRecord] gives
    has a name that is not empty, and the type and the data of the
    provider's record. *)
Theorem X1_listed_record_fields (rt : GoRuntime) (r : omglolRecord)
  (zone : string) :
  rrName (toLibdnsRecord r zone) <> ""
  /\ rrType (toLibdnsRecord r zone) = recType r
  /\ rrData (toLibdnsRecord r zone) = recData r.
Proof.
  split; [|split; reflexivity].
  unfold toLibdnsRecord, toRelativeName. cbn [rrName].
  destruct (RelativeName _ zone =? "") eqn:E.
  - discriminate.
  - now apply String.eqb_neq.
Qed.

(** X2: in a well-formed zone a record is listed under the provider's own
    name, address label included, and under "@" when the provider's name is
    empty. *)
Theorem X2_listed_name_in_zone (rt : GoRuntime) (r : omglolRecord)
  (zone : string) :
  wellFormedZone zone = true ->
  rrName (toLibdnsRecord r zone) = (if recName r =? "" then "@" else recName r).
Proof.
  intros Hwf. unfold toLibdnsRecord. cbn [rrName].
  destruct (String.eqb_spec (recName r) "") as [E|Hne].
  - rewrite E. unfold toRelativeName, RelativeName.
    unfold wellFormedZone in Hwf.
    apply andb_true_iff in Hwf as [Hz Hdot].
    apply negb_true_iff in Hz, Hdot. apply String.eqb_neq in Hz.
    set (zt := TrimSuffix zone ".") in *.
    assert (Hlen : (String.length "." <= String.length zt)%nat).
    { destruct zt; [congruence | simpl; lia]. }
    assert (Htrim : trimRelative ("" ++ "." ++ zt) zone = "").
    { unfold trimRelative. fold zt.
      rewrite (TrimSuffix_absent ("" ++ "." ++ zt) ".").
      - rewrite <- app_assoc_str, TrimSuffix_app. reflexivity.
      - rewrite <- app_assoc_str, HasSuffix_app_r by exact Hlen. exact Hdot. }
    rewrite Htrim. simpl.
    destruct (zone =? ""); reflexivity.
  - now apply toRelativeName_wellFormed.
Qed.

Lemma X2_listed_name_in_zone_witness :
  rrName (toLibdnsRecord (rt := asciiRuntime)
            (echoRecord 4 {| plType := "TXT"; plName := "_acme-challenge.g";
                             plData := "token"; plTTL := 60 |}) "g.omg.lol.")
  = "_acme-challenge.g".
Proof.
  exact (X2_listed_name_in_zone asciiRuntime
           (echoRecord 4 {| plType := "TXT"; plName := "_acme-challenge.g";
                            plData := "token"; plTTL := 60 |}) "g.omg.lol."
           eq_refl).
Defined.

(** A name that the trims reduce to "@" or to nothing goes to the provider
    as the address. *)
Lemma toProviderName_of_apex (name zone address : string) :
  trimRelative name zone = "@" \/ trimRelative name zone = "" ->
  toProviderName (RelativeName name zone) address = address.
Proof.
  intros H.
  rewrite (proj2 (relativeName_variant name zone address)).
  unfold toProviderName. destruct H as [-> | ->]; reflexivity.
Qed.

Lemma trimRelative_at (zone : string) :
  trimRelative "@" zone = "@" \/ trimRelative "@" zone = "".
Proof.
  unfold trimRelative.
  change (TrimSuffix "@" ".") with "@".
  assert (H : TrimSuffix "@" (TrimSuffix zone ".") = "@"
              \/ TrimSuffix "@" (TrimSuffix zone ".") = "").
  { generalize (TrimSuffix zone "."). intros t. unfold TrimSuffix.
    destruct (HasSuffix "@" t); [|now left].
    destruct (String.length t) as [|[|k]]; simpl; auto. }
  destruct H as [-> | ->]; [left | right]; reflexivity.
Qed.

(** X3: the apex goes to the provider under the zone's address, however the
    input names it: "@", the empty name, the zone itself and, when it does
    not end with a dot, the zone without its trailing dot. *)
Theorem X3_apex_payload_name (rr : RR) (zone : string) :
  plName (libdnsRecordToPayload (withName rr "@") zone) = zoneAddress zone
  /\ plName (libdnsRecordToPayload (withName rr "") zone) = zoneAddress zone
  /\ plName (libdnsRecordToPayload (withName rr zone) zone) = zoneAddress zone
  /\ (HasSuffix (TrimSuffix zone ".") "." = false ->
      plName (libdnsRecordToPayload (withName rr (TrimSuffix zone ".")) zone)
      = zoneAddress zone).
Proof.
  unfold libdnsRecordToPayload. cbn [plName withName rrName].
  split; [|split; [|split]].
  - apply toProviderName_of_apex, trimRelative_at.
  - apply toProviderName_of_apex. right. unfold trimRelative.
    now rewrite !TrimSuffix_empty.
  - apply toProviderName_of_apex. right. unfold trimRelative.
    now rewrite TrimSuffix_self, TrimSuffix_empty.
  - intros Hdot. apply toProviderName_of_apex. right. unfold trimRelative.
    rewrite (TrimSuffix_absent _ "." Hdot).
    now rewrite TrimSuffix_self, TrimSuffix_empty.
Qed.

(** X4: in a well-formed zone, a name that spells the zone out after a
    label goes to the provider as the label alone, and gives the very
    payload of the label used as a relative name. *)
Theorem X4_absolute_name_payload (rr : RR) (label zone : string) :
  wellFormedZone zone = true ->
  plName (libdnsRecordToPayload (withName rr (label ++ "." ++ zone)) zone)
  = toProviderName label (zoneAddress zone)
  /\ (RelativeName label zone = label ->
      libdnsRecordToPayload (withName rr (label ++ "." ++ zone)) zone
      = libdnsRecordToPayload (withName rr label) zone).
Proof.
  intros Hwf.
  assert (Hname : toProviderName (RelativeName (label ++ "." ++ zone) zone)
                    (zoneAddress zone)
                  = toProviderName label (zoneAddress zone)).
  { rewrite (proj2 (relativeName_variant _ zone (zoneAddress zone))).
    now rewrite (trimRelative_absolute label zone Hwf). }
  split.
  - exact Hname.
  - intros Hrel. unfold libdnsRecordToPayload. cbn [withName rrName rrTTL rrType rrData].
    now rewrite Hname, Hrel.
Qed.

Lemma X4_absolute_name_payload_witness :
  libdnsRecordToPayload
    {| rrName := "_acme-challenge.g.omg.lol."; rrTTL := 60 * Second;
       rrType := "TXT"; rrData := "token" |} "g.omg.lol."
  = {| plType := "TXT"; plName := "_acme-challenge"; plData := "token";
       plTTL := 60 |}.
Proof.
  exact (proj2 (X4_absolute_name_payload
                  {| rrName := ""; rrTTL := 60 * Second; rrType := "TXT";
                     rrData := "token" |} "_acme-challenge" "g.omg.lol." eq_refl)
           eq_refl).
Defined.

(** X5: a payload carries the record's type and data, and a TTL of at least
    one second that is 300 or the record's TTL in seconds. *)
Theorem X5_payload_fields (rr : RR) (zone : string) :
  1 <= plTTL (libdnsRecordToPayload rr zone)
  /\ (plTTL (libdnsRecordToPayload rr zone) = 300
      \/ plTTL (libdnsRecordToPayload rr zone) * Second <= rrTTL rr
         < (plTTL (libdnsRecordToPayload rr zone) + 1) * Second)
  /\ plType (libdnsRecordToPayload rr zone) = rrType rr
  /\ plData (libdnsRecordToPayload rr zone) = rrData rr.
Proof.
  unfold libdnsRecordToPayload. cbn [plTTL plType plData].
  destruct (Z.lt_ge_cases (rrTTL rr) Second) as [Hlt|Hge].
  - pose proof (quot_Second_small _ Hlt) as Hq.
    apply Z.leb_le in Hq. rewrite Hq. repeat split; [lia | now left].
  - destruct (quot_Second_large _ Hge) as [Hpos Heq].
    destruct (Z.leb_spec (Z.quot (rrTTL rr) Second) 0) as [|_]; [lia|].
    repeat split; [lia | right].
    rewrite Heq. unfold Second in *.
    pose proof (Z.div_mod (rrTTL rr) 1000000000).
    pose proof (Z.mod_pos_bound (rrTTL rr) 1000000000). lia.
Qed.

(** X6: a provider name that equals the payload's name up to the case of
    ASCII letters matches it, alone and followed by the address label: the
    search of [SetRecords] and the scan of [DeleteRecords] find a record
    under both shapes of its name. *)
Theorem X6_namesMatch_both_shapes (rt : GoRuntime)
  (providerLabel payloadName zone : string) :
  isASCII providerLabel = true ->
  isASCII payloadName = true ->
  lowerASCII providerLabel = lowerASCII payloadName ->
  namesMatch providerLabel payloadName zone = true
  /\ namesMatch (providerLabel ++ "." ++ zoneAddress zone) payloadName zone = true.
Proof.
  intros Hp Hn Hlow.
  assert (Hfold : EqualFold providerLabel payloadName = true).
  { rewrite (EqualFold_ascii _ _ Hp Hn), Hlow. apply String.eqb_refl. }
  rewrite !namesMatch_unfold. split.
  - rewrite Hfold. apply orb_true_r.
  - rewrite TrimSuffix_app, Hfold. reflexivity.
Qed.

Lemma X6_namesMatch_both_shapes_witness :
  namesMatch (rt := asciiRuntime) "_ACME-Challenge" "_acme-challenge" "g.omg.lol."
  = true
  /\ namesMatch (rt := asciiRuntime) "_ACME-Challenge.g" "_acme-challenge"
       "g.omg.lol." = true.
Proof.
  exact (X6_namesMatch_both_shapes asciiRuntime "_ACME-Challenge"
           "_acme-challenge" "g.omg.lol." eq_refl eq_refl eq_refl).
Defined.

Lemma wrap64_range (z : Z) : - 2 ^ 63 <= wrap64 z < 2 ^ 63.
Proof.
  unfold wrap64.
  pose proof (Z.mod_pos_bound (z + 2 ^ 63) (2 ^ 64)). lia.
Qed.

Lemma wrap64_exact (z : Z) : - 2 ^ 63 <= z < 2 ^ 63 -> wrap64 z = z.
Proof.
  intros H. unfold wrap64. rewrite Z.mod_small; lia.
Qed.

(** X7: the TTL of a listed record is a 64-bit duration; it is the
    provider's seconds exactly while they are within 9223372036 seconds of
    zero, and wraps around beyond: the string "9223372037" is listed with a
    negative TTL. *)
Theorem X7_listed_ttl_range (rt : GoRuntime) (r : omglolRecord) (zone : string) :
  - 2 ^ 63 <= rrTTL (toLibdnsRecord r zone) < 2 ^ 63
  /\ (- 9223372036 <= ttlSeconds r <= 9223372036 ->
      rrTTL (toLibdnsRecord r zone) = ttlSeconds r * Second)
  /\ rrTTL (toLibdnsRecord (withTTL r (VString "9223372037")) zone) < 0.
Proof.
  unfold toLibdnsRecord. cbn [rrTTL]. split; [apply wrap64_range|]. split.
  - intros H. apply wrap64_exact. unfold Second. lia.
  - reflexivity.
Qed.

(** * Further properties of the operations *)

Section Shapes.
Context {rt : GoRuntime}.
Variable srv : Store.
Variable p : Provider.
Variable zone : string.

Lemma loopShape_nil {X : Type} (call : X -> Call) (h : list Call)
  (acc : list RR) :
  loopShape srv call [] h ((acc, None), h) acc.
Proof.
  exists 0%nat, []. cbn. rewrite !app_nil_r. auto.
Qed.

Lemma loopShape_stop {X : Type} (call : X -> Call) (x : X) (rest : list X)
  (h : list Call) (acc : list RR) (err : error) :
  callError srv h (call x) = Some err ->
  loopShape srv call (x :: rest) h ((acc, Some err), h ++ [call x]) acc.
Proof.
  intros Herr. exists 1%nat, []. cbn. rewrite app_nil_r.
  repeat split; [lia|]. exists [], x. cbn. rewrite app_nil_r. auto.
Qed.

Lemma loopShape_step {X : Type} (call : X -> Call) (x : X) (rest : list X)
  (h : list Call) (acc : list RR) (rr : RR) (run : Outcome * list Call) :
  callError srv h (call x) = None ->
  loopShape srv call rest (h ++ [call x]) run (acc ++ [rr]) ->
  loopShape srv call (x :: rest) h run acc.
Proof.
  intros Hok (k & new & Hk & Hcalls & Hres & Hend).
  exists (S k), (rr :: new). cbn [firstn map length].
  split; [lia|]. split; [now rewrite Hcalls, <- app_assoc|].
  split; [now rewrite Hres, <- app_assoc|].
  destruct (snd (fst run)) as [err|].
  - destruct Hend as (done & y & Hfirst & Herr & Hlen).
    exists (x :: done), y. cbn [map length app].
    rewrite Hfirst. repeat split; [|lia].
    rewrite <- app_assoc in Herr. exact Herr.
  - destruct Hend as [-> Hlen]. cbn. lia.
Qed.

Lemma appendLoop_shape (records acc : list RR) (h : list Call) :
  loopShape srv (createCallOf p zone) records h
    (appendLoop srv p zone records acc h) acc.
Proof.
  revert acc h. induction records as [|r records IH]; intros acc h.
  - apply loopShape_nil.
  - cbn [appendLoop]. unfold bind, createRecord.
    destruct (createReply srv h p (libdnsRecordToPayload r zone))
      as [err|created] eqn:E.
    + apply (loopShape_stop (createCallOf p zone) r). cbn. now rewrite E.
    + apply (loopShape_step (createCallOf p zone) r _ _ _
               (toLibdnsRecord created zone)).
      * cbn. now rewrite E.
      * apply IH.
Qed.

Lemma setLoop_shape (existing : list omglolRecord) (records acc : list RR)
  (h : list Call) :
  loopShape srv (setCallOf p zone existing) records h
    (setLoop srv p zone existing records acc h) acc.
Proof.
  revert acc h. induction records as [|r records IH]; intros acc h.
  - apply loopShape_nil.
  - cbn [setLoop].
    assert (Hcall : setCallOf p zone existing r
                    = match findMatched existing r (libdnsRecordToPayload r zone) zone with
                      | Some m => UpdateCall p (recordID m) (libdnsRecordToPayload r zone)
                      | None => CreateCall p (libdnsRecordToPayload r zone)
                      end) by reflexivity.
    destruct (findMatched existing r (libdnsRecordToPayload r zone) zone) as [m|];
      unfold bind, updateRecord, createRecord; rewrite <- Hcall.
    + destruct (updateReply srv h p (recordID m) (libdnsRecordToPayload r zone))
        as [err|] eqn:E.
      * apply loopShape_stop. rewrite Hcall. exact E.
      * eapply loopShape_step; [rewrite Hcall; exact E | apply IH].
    + destruct (createReply srv h p (libdnsRecordToPayload r zone))
        as [err|created] eqn:E.
      * apply loopShape_stop. rewrite Hcall. cbn. now rewrite E.
      * eapply loopShape_step; [rewrite Hcall; cbn; now rewrite E | apply IH].
Qed.

Lemma deleteAll_shape (targets : list omglolRecord) (acc : list RR)
  (h : list Call) :
  loopShape srv (deleteCallOf p) targets h (deleteAll srv p zone targets acc h) acc.
Proof.
  revert acc h. induction targets as [|e targets IH]; intros acc h.
  - apply loopShape_nil.
  - cbn [deleteAll]. unfold bind, deleteRecord.
    destruct (deleteReply srv h p (recordID e)) as [err|] eqn:E.
    + apply (loopShape_stop (deleteCallOf p)). exact E.
    + apply (loopShape_step (deleteCallOf p) _ _ _ _ (toLibdnsRecord e zone));
        [exact E | apply IH].
Qed.


End Shapes.

Lemma loopShape_calls {X : Type} (srv : Store) (call : X -> Call)
  (items : list X) (h : list Call) (run : Outcome * list Call) (acc : list RR)
  (P : Call -> Prop) :
  (forall x : X, P (call x)) ->
  loopShape srv call items h run acc ->
  exists calls : list Call,
    snd run = h ++ calls /\ Forall P calls /\ (length calls <= length items)%nat.
Proof.
  intros HP (k & new & Hk & Hcalls & _).
  exists (map call (firstn k items)). split; [exact Hcalls|]. split.
  - apply Forall_forall. intros c Hc.
    apply in_map_iff in Hc as (x & <- & _). apply HP.
  - rewrite length_map, length_firstn. lia.
Qed.


(** X8: [GetRecords] makes one list call and nothing else.  It returns the
    store's error, or one record for each listed record, in the store's
    order, with the listed type and data and a name that is not empty. *)
Theorem X8_get_records (rt : GoRuntime) (srv : Store) (p : Provider)
  (zone : string) (h : list Call) :
  snd (GetRecords srv p zone h) = h ++ [ListCall p]
  /\ match listReply srv h p with
     | inl err => fst (GetRecords srv p zone h) = inl err
     | inr raw =>
         exists listed : list RR,
           fst (GetRecords srv p zone h) = inr listed
           /\ length listed = length raw
           /\ map rrType listed = map recType raw
           /\ map rrData listed = map recData raw
           /\ Forall (fun rr => rrName rr <> "") listed
     end.
Proof.
  unfold GetRecords, bind, listRecords.
  destruct (listReply srv h p) as [err|raw]; cbn; split; try reflexivity.
  exists (map (fun r => toLibdnsRecord r zone) raw).
  split; [reflexivity|]. rewrite length_map, !map_map.
  repeat split.
  apply Forall_forall. intros rr Hrr.
  apply in_map_iff in Hrr as (r & <- & _).
  unfold toLibdnsRecord, toRelativeName. cbn [rrName].
  destruct (RelativeName _ zone =? "") eqn:E; [discriminate|].
  now apply String.eqb_neq.
Qed.




(** X11: among the listed records [SetRecords] updates the first one whose
    type and name match the input record, whatever follows it, and creates
    a record when none matches. *)
Theorem X11_set_first_match_wins (rt : GoRuntime) (p : Provider) (zone : string)
  (record : RR) (before after : list omglolRecord) (e : omglolRecord) :
  let payload := libdnsRecordToPayload record zone in
  let matches (x : omglolRecord) :=
    EqualFold (recType x) (rrType record)
    && namesMatch (recName x) (plName payload) zone in
  (forall x : omglolRecord, In x before -> matches x = false) ->
  (matches e = true ->
   setCallOf p zone (before ++ e :: after) record
   = UpdateCall p (recordID e) payload)
  /\ setCallOf p zone before record = CreateCall p payload.
Proof.
  intros payload matches Hbefore.
  assert (Hfind : forall rest : list omglolRecord,
            findMatched (before ++ rest) record payload zone
            = findMatched rest record payload zone).
  { intros rest. unfold findMatched.
    induction before as [|x before IH]; [reflexivity|].
    cbn [app find]. fold payload.
    change (EqualFold (recType x) (rrType record)
            && namesMatch (recName x) (plName payload) zone) with (matches x).
    rewrite (Hbefore x (or_introl eq_refl)).
    apply IH. intros y Hy. apply Hbefore. now right. }
  split.
  - intros He. unfold setCallOf. fold payload. rewrite Hfind.
    unfold findMatched. cbn [find].
    change (EqualFold (recType e) (rrType record)
            && namesMatch (recName e) (plName payload) zone) with (matches e).
    now rewrite He.
  - unfold setCallOf. fold payload.
    rewrite <- (app_nil_r before), Hfind. reflexivity.
Qed.

(** Two listed records of the same type and name: the first one is
    updated. *)
Lemma X11_set_first_match_wins_witness :
  setCallOf (rt := asciiRuntime) demoProvider "g.omg.lol."
    [echoRecord 3 {| plType := "A"; plName := "www.g"; plData := "192.0.2.3";
                     plTTL := 60 |};
     echoRecord 7 {| plType := "TXT"; plName := "a.g"; plData := "first";
                     plTTL := 60 |};
     echoRecord 8 {| plType := "TXT"; plName := "a.g"; plData := "second";
                     plTTL := 60 |}]
    {| rrName := "a"; rrTTL := 60 * Second; rrType := "TXT"; rrData := "new" |}
  = UpdateCall demoProvider "7"
      {| plType := "TXT"; plName := "a"; plData := "new"; plTTL := 60 |}.
Proof.
  refine (proj1 (X11_set_first_match_wins asciiRuntime demoProvider "g.omg.lol."
                   {| rrName := "a"; rrTTL := 60 * Second; rrType := "TXT";
                      rrData := "new" |}
                   [echoRecord 3 {| plType := "A"; plName := "www.g";
                                    plData := "192.0.2.3"; plTTL := 60 |}]
                   [echoRecord 8 {| plType := "TXT"; plName := "a.g";
                                    plData := "second"; plTTL := 60 |}]
                   (echoRecord 7 {| plType := "TXT"; plName := "a.g";
                                    plData := "first"; plTTL := 60 |}) _)
            eq_refl).
  intros x [<-|[]]. reflexivity.
Defined.



(** The calls each operation adds to the history. *)
Lemma operations_calls (rt : GoRuntime) (srv : Store) (p : Provider)
  (zone : string) (records : list RR) (h : list Call) :
  snd (GetRecords srv p zone h) = h ++ [ListCall p]
  /\ (exists calls : list Call,
        snd (AppendRecords srv p zone records h) = h ++ calls
        /\ Forall (fun c => callProvider c = p /\ isCreateCall c = true) calls
        /\ (length calls <= length records)%nat)
  /\ (exists calls : list Call,
        snd (SetRecords srv p zone records h) = h ++ ListCall p :: calls
        /\ Forall (fun c => callProvider c = p
                            /\ isUpdateCall c || isCreateCall c = true
                            /\ isDeleteCall c = false) calls
        /\ (length calls <= length records)%nat)
  /\ (exists calls : list Call,
        snd (DeleteRecords srv p zone records h) = h ++ ListCall p :: calls
        /\ Forall (fun c => callProvider c = p /\ isDeleteCall c = true) calls).
Proof.
  split; [|split; [|split]].
  - unfold GetRecords, bind, listRecords.
    now destruct (listReply srv h p).
  - destruct (loopShape_calls srv (createCallOf p zone) records h _ []
                (fun c => callProvider c = p /\ isCreateCall c = true)
                (fun r => conj eq_refl eq_refl)
                (appendLoop_shape srv p zone records [] h))
      as (calls & Hcalls & Hall & Hlen).
    now exists calls.
  - unfold SetRecords, bind, listRecords.
    destruct (listReply srv h p) as [err|existing].
    + exists []. cbn. repeat split; [constructor | lia].
    + assert (HP : forall r : RR,
                (fun c => callProvider c = p
                          /\ isUpdateCall c || isCreateCall c = true
                          /\ isDeleteCall c = false)
                  (setCallOf p zone existing r)).
      { intros r. unfold setCallOf.
        destruct (findMatched existing r _ zone); repeat split. }
      destruct (loopShape_calls srv (setCallOf p zone existing) records
                  (h ++ [ListCall p]) _ [] _ HP
                  (setLoop_shape srv p zone existing records []
                     (h ++ [ListCall p])))
        as (calls & Hcalls & Hall & Hlen).
      exists calls. rewrite Hcalls, <- app_assoc. auto.
  - unfold DeleteRecords, bind, listRecords.
    destruct (listReply srv h p) as [err|existing].
    + exists []. cbn. split; [reflexivity | constructor].
    + rewrite deleteLoop_targets.
      destruct (loopShape_calls srv (deleteCallOf p)
                  (deleteTargets zone existing records)
                  (h ++ [ListCall p]) _ []
                  (fun c => callProvider c = p /\ isDeleteCall c = true)
                  (fun e => conj eq_refl eq_refl)
                  (deleteAll_shape srv p zone _ [] (h ++ [ListCall p])))
        as (calls & Hcalls & Hall & _).
      exists calls. rewrite Hcalls, <- app_assoc. auto.
Qed.

(** X13: the operations only add calls to the history, all of them on
    behalf of the provider they are run for.  [GetRecords] makes its list
    call alone; [AppendRecords] makes create calls, at most one for each
    input record; [SetRecords] makes one list call and then update and
    create calls, at most one for each input record, and never a delete
    call; [DeleteRecords] makes one list call and then delete calls only. *)
Theorem X13_calls_discipline (rt : GoRuntime) (srv : Store) (p : Provider)
  (zone : string) (records : list RR) (h : list Call) :
  snd (GetRecords srv p zone h) = h ++ [ListCall p]
  /\ (exists calls : list Call,
        snd (AppendRecords srv p zone records h) = h ++ calls
        /\ Forall (fun c => callProvider c = p /\ isCreateCall c = true) calls
        /\ (length calls <= length records)%nat)
  /\ (exists calls : list Call,
        snd (SetRecords srv p zone records h) = h ++ ListCall p :: calls
        /\ Forall (fun c => callProvider c = p
                            /\ isUpdateCall c || isCreateCall c = true
                            /\ isDeleteCall c = false) calls
        /\ (length calls <= length records)%nat)
  /\ (exists calls : list Call,
        snd (DeleteRecords srv p zone records h) = h ++ ListCall p :: calls
        /\ Forall (fun c => callProvider c = p /\ isDeleteCall c = true) calls).
Proof. apply operations_calls. Qed.

(** * Identifiers and TTLs written in decimal *)

Lemma FormatInt10_parses_back (z : Z) :
  NilZero.int_of_string (FormatInt10 z) = Some (Z.to_int z).
Proof.
  unfold FormatInt10. apply NilZero.isi.
  - destruct z; simpl; intros [= H]; try discriminate.
    now apply DecimalPos.Unsigned.to_uint_nonnil in H.
  - destruct z; simpl; intros [= H].
    now apply DecimalPos.Unsigned.to_uint_nonnil in H.
Qed.

Lemma FormatInt10_inj (a b : Z) : FormatInt10 a = FormatInt10 b -> a = b.
Proof.
  intros H. apply DecimalZ.to_int_inj.
  pose proof (FormatInt10_parses_back a) as Ha.
  rewrite H, FormatInt10_parses_back in Ha. now injection Ha.
Qed.

Lemma parseDigits_string_of_uint (d : Decimal.uint) (acc : Z) :
  parseDigits (NilEmpty.string_of_uint d) acc = Some (digitsValue d acc).
Proof.
  revert acc. induction d; intros acc; simpl; try reflexivity; apply IHd.
Qed.

Lemma digitsValue_acc (d : Decimal.uint) (acc : positive) :
  digitsValue d (Z.pos acc) = Z.pos (Pos.of_uint_acc d acc).
Proof.
  revert acc.
  induction d; intros acc; cbn [digitsValue Pos.of_uint_acc];
    try reflexivity; rewrite <- IHd; f_equal; lia.
Qed.

Lemma digitsValue_of_uint (d : Decimal.uint) :
  digitsValue d 0 = Z.of_N (Pos.of_uint d).
Proof.
  induction d; cbn [digitsValue Pos.of_uint Z.of_N];
    try reflexivity; try exact IHd;
    rewrite <- digitsValue_acc; reflexivity.
Qed.

(** [Atoi] reads back what [FormatInt] writes. *)
Lemma Atoi_FormatInt10 (n : Z) :
  inInt64 n = true -> Atoi (FormatInt10 n) = Some n.
Proof.
  intros Hn. unfold FormatInt10.
  destruct n as [|q|q]; [reflexivity| |].
  - cbn [Z.to_int NilZero.string_of_int].
    pose proof (DecimalPos.Unsigned.to_uint_nonnil q) as Hnil.
    pose proof (DecimalPos.Unsigned.of_to q) as Hval.
    pose proof (parseDigits_string_of_uint (Pos.to_uint q) 0) as Hparse.
    rewrite digitsValue_of_uint, Hval in Hparse. cbn [Z.of_N] in Hparse.
    unfold NilZero.string_of_uint.
    destruct (Pos.to_uint q) as [|d|d|d|d|d|d|d|d|d|d]; [congruence | ..];
      cbn [NilEmpty.string_of_uint] in *; unfold Atoi; cbn [Ascii.eqb Bool.eqb orb];
      rewrite Hparse, Hn; reflexivity.
  - cbn [Z.to_int NilZero.string_of_int].
    pose proof (DecimalPos.Unsigned.to_uint_nonnil q) as Hnil.
    pose proof (DecimalPos.Unsigned.of_to q) as Hval.
    pose proof (parseDigits_string_of_uint (Pos.to_uint q) 0) as Hparse.
    rewrite digitsValue_of_uint, Hval in Hparse. cbn [Z.of_N] in Hparse.
    unfold NilZero.string_of_uint.
    destruct (Pos.to_uint q) as [|d|d|d|d|d|d|d|d|d|d]; [congruence | ..];
      cbn [NilEmpty.string_of_uint] in *; unfold Atoi; cbn [Ascii.eqb Bool.eqb orb];
      rewrite Hparse; cbn [Z.opp]; rewrite Hn; reflexivity.
Qed.

(** X14: a numeric ID is written as the decimal form of its integral part,
    which is the ID the same number has when the API sends it as a string;
    two numeric IDs give the same text exactly when their integral parts
    are equal. *)
Theorem X14_numeric_ids (rt : GoRuntime) (r : omglolRecord)
  (f1 f2 : spec_float) (n1 n2 : Z) :
  truncFloat64 f1 = Some n1 -> inInt64 n1 = true ->
  truncFloat64 f2 = Some n2 -> inInt64 n2 = true ->
  recordID (withID r (VFloat64 f1)) = FormatInt10 n1
  /\ recordID (withID r (VFloat64 f1))
     = recordID (withID r (VString (FormatInt10 n1)))
  /\ (recordID (withID r (VFloat64 f1)) = recordID (withID r (VFloat64 f2))
      <-> n1 = n2).
Proof.
  intros H1 R1 H2 R2.
  unfold recordID, float64ToInt. cbn [withID recID].
  rewrite H1, R1, H2, R2. repeat split.
  - apply FormatInt10_inj.
  - now intros ->.
Qed.

Lemma X14_numeric_ids_witness :
  recordID (rt := asciiRuntime)
    (withID (echoRecord 0 {| plType := "A"; plName := "www.g";
                             plData := "192.0.2.1"; plTTL := 60 |})
       (VFloat64 (float64OfZ 41523)))
  = "41523".
Proof.
  exact (proj1 (X14_numeric_ids asciiRuntime
                  (echoRecord 0 {| plType := "A"; plName := "www.g";
                                   plData := "192.0.2.1"; plTTL := 60 |})
                  (float64OfZ 41523) (float64OfZ 7) 41523 7
                  eq_refl eq_refl eq_refl eq_refl)).
Defined.

(** X15: a TTL that the provider sends as the decimal string of an integer
    is read as that integer, negative ones included, and listed as that
    many seconds while it is within 9223372036 seconds of zero. *)
Theorem X15_decimal_ttl (rt : GoRuntime) (r : omglolRecord) (zone : string)
  (n : Z) :
  inInt64 n = true ->
  ttlSeconds (withTTL r (VString (FormatInt10 n))) = n
  /\ (- 9223372036 <= n <= 9223372036 ->
      rrTTL (toLibdnsRecord (withTTL r (VString (FormatInt10 n))) zone)
      = n * Second).
Proof.
  intros Hn.
  assert (Httl : ttlSeconds (withTTL r (VString (FormatInt10 n))) = n).
  { unfold ttlSeconds. cbn [withTTL recTTL]. now rewrite (Atoi_FormatInt10 n Hn). }
  split; [exact Httl|]. intros Hrange.
  unfold toLibdnsRecord. cbn [rrTTL]. rewrite Httl.
  apply wrap64_exact. unfold Second. lia.
Qed.

Lemma X15_decimal_ttl_witness :
  ttlSeconds (rt := asciiRuntime)
    (withTTL (echoRecord 0 {| plType := "A"; plName := "www.g";
                              plData := "192.0.2.1"; plTTL := 60 |})
       (VString "86400"))
  = 86400.
Proof.
  exact (proj1 (X15_decimal_ttl asciiRuntime
                  (echoRecord 0 {| plType := "A"; plName := "www.g";
                                   plData := "192.0.2.1"; plTTL := 60 |})
                  "g.omg.lol." 86400 eq_refl)).
Defined.

(** * The requests on the wire *)

Lemma prefix_app (a b : string) : prefix a (a ++ b) = true.
Proof.
  induction a as [|c a IH]; [now destruct b|].
  change (prefix (String c a) (String c a ++ b))
    with (if ascii_dec c c then prefix a (a ++ b) else false).
  destruct (ascii_dec c c); [exact IH | congruence].
Qed.



Section Wires.
Variable w : Wire.

Lemma exchange_sent (req : Request) (sent : list Request) :
  snd (exchange w req sent) = sent ++ [req].
Proof. reflexivity. Qed.





End Wires.


(** X17: once a request is answered with a readable body, the status
    decides first: any status other than 200 is returned as an error with
    the status and the body, by all four functions.  With status 200,
    [updateRecord] and [deleteRecord] succeed whatever the body says; they
    never decode it. *)
Theorem X17_status_decides (w : Wire) (p : Provider) (id : string)
  (payload : omglolRecordPayload) (sent : list Request)
  (resp : Response) (body : string) :
  respBody resp = inr body ->
  (newRequestError w GET (dnsURL p) = None ->
   roundTrip w sent (buildRequest p GET (dnsURL p) None) = inr resp ->
   StatusCode resp <> 200 ->
   fst (httpListRecords w p sent) = inl (StatusError (StatusCode resp) body))
  /\ (forall data : string,
        marshalPayload w payload = inr data ->
        newRequestError w POST (dnsURL p) = None ->
        roundTrip w sent (buildRequest p POST (dnsURL p) (Some data)) = inr resp ->
        StatusCode resp <> 200 ->
        fst (httpCreateRecord w p payload sent)
        = inl (StatusError (StatusCode resp) body))
  /\ (forall data : string,
        marshalPayload w payload = inr data ->
        newRequestError w PATCH (recordURL p id) = None ->
        roundTrip w sent (buildRequest p PATCH (recordURL p id) (Some data))
        = inr resp ->
        fst (httpUpdateRecord w p id payload sent)
        = if (StatusCode resp =? 200)%Z then None
          else Some (StatusError (StatusCode resp) body))
  /\ (newRequestError w DELETE (recordURL p id) = None ->
      roundTrip w sent (buildRequest p DELETE (recordURL p id) None) = inr resp ->
      fst (httpDeleteRecord w p id sent)
      = if (StatusCode resp =? 200)%Z then None
        else Some (StatusError (StatusCode resp) body)).
Proof.
  intros Hbody. split; [|split; [|split]].
  - intros Hnew Hrt Hstatus. unfold httpListRecords, exchange.
    rewrite Hnew, Hrt, Hbody. cbn.
    destruct (Z.eqb_spec (StatusCode resp) 200); [contradiction | reflexivity].
  - intros data Hm Hnew Hrt Hstatus. unfold httpCreateRecord, exchange.
    rewrite Hm, Hnew, Hrt, Hbody. cbn.
    destruct (Z.eqb_spec (StatusCode resp) 200); [contradiction | reflexivity].
  - intros data Hm Hnew Hrt. unfold httpUpdateRecord, exchange.
    rewrite Hm, Hnew, Hrt, Hbody. cbn.
    now destruct (StatusCode resp =? 200)%Z.
  - intros Hnew Hrt. unfold httpDeleteRecord, exchange.
    rewrite Hnew, Hrt, Hbody. cbn.
    now destruct (StatusCode resp =? 200)%Z.
Qed.

(** A wire that answers 200 with an envelope whose success flag is false:
    the update and the delete succeed. *)
Lemma X17_status_decides_witness :
  let payload := {| plType := "TXT"; plName := "a"; plData := "new";
                    plTTL := 60 |} in
  fst (httpUpdateRecord (scenarioWire 200 false) demoProvider "7" payload []) = None
  /\ fst (httpDeleteRecord (scenarioWire 200 false) demoProvider "7" []) = None.
Proof.
  intros payload.
  destruct (X17_status_decides (scenarioWire 200 false) demoProvider "7" payload []
              {| StatusCode := 200; respBody := inr "{}" |} "{}" eq_refl)
    as (_ & _ & Hupdate & Hdelete).
  split.
  - exact (Hupdate "new" eq_refl eq_refl eq_refl).
  - exact (Hdelete eq_refl eq_refl).
Defined.

(** X18: [listRecords] and [createRecord] return records only from an answer
    with status 200 and a readable body that decodes to an envelope whose
    success flag is true, and then they return what the envelope holds. *)
Theorem X18_records_only_from_success (w : Wire) (p : Provider)
  (payload : omglolRecordPayload) (sent : list Request) :
  (forall dns : list omglolRecord,
     fst (httpListRecords w p sent) = inr dns ->
     exists (resp : Response) (body : string),
       roundTrip w sent (buildRequest p GET (dnsURL p) None) = inr resp
       /\ respBody resp = inr body
       /\ StatusCode resp = 200
       /\ unmarshalList w body = inr (true, dns))
  /\ (forall created : omglolRecord,
        fst (httpCreateRecord w p payload sent) = inr created ->
        exists (data : string) (resp : Response) (body : string),
          marshalPayload w payload = inr data
          /\ roundTrip w sent (buildRequest p POST (dnsURL p) (Some data)) = inr resp
          /\ respBody resp = inr body
          /\ StatusCode resp = 200
          /\ unmarshalCreate w body = inr (true, created)).
Proof.
  split.
  - intros dns. unfold httpListRecords, exchange.
    destruct (newRequestError w GET (dnsURL p)); [discriminate|].
    destruct (roundTrip w sent _) as [err|resp] eqn:Hrt; [discriminate|].
    destruct (respBody resp) as [err|body] eqn:Hb; [discriminate|].
    destruct (Z.eqb_spec (StatusCode resp) 200) as [Hs|]; [|discriminate].
    cbn. destruct (unmarshalList w body) as [msg|[[|] got]] eqn:Hu;
      cbn; try discriminate.
    intros [= <-]. exists resp, body. auto.
  - intros created. unfold httpCreateRecord, exchange.
    destruct (marshalPayload w payload) as [err|data] eqn:Hm; [discriminate|].
    destruct (newRequestError w POST (dnsURL p)); [discriminate|].
    destruct (roundTrip w sent _) as [err|resp] eqn:Hrt; [discriminate|].
    destruct (respBody resp) as [err|body] eqn:Hb; [discriminate|].
    destruct (Z.eqb_spec (StatusCode resp) 200) as [Hs|]; [|discriminate].
    cbn. destruct (unmarshalCreate w body) as [msg|[[|] got]] eqn:Hu;
      cbn; try discriminate.
    intros [= <-]. exists data, resp, body. auto.
Qed.

(** * A record stored under the payload's name is found again *)

Lemma find_finds {A : Type} (f : A -> bool) (l : list A) (x : A) :
  In x l -> f x = true -> exists y : A, find f l = Some y.
Proof.
  intros Hin Hf. destruct (find f l) as [y|] eqn:E; [now exists y|].
  pose proof (find_none f l E x Hin). congruence.
Qed.

(** X19: when the store lists a record whose type is the input's up to the
    case of ASCII letters and whose name is the input's payload name, alone
    or followed by the address label, [SetRecords] makes an update call for
    the input, not a create call, and [DeleteRecords] deletes the listed
    record if the input has no data or the same data. *)
Theorem X19_stored_record_is_found (rt : GoRuntime) (p : Provider)
  (zone : string) (rr : RR) (existing : list omglolRecord) (e : omglolRecord) :
  let payload := libdnsRecordToPayload rr zone in
  In e existing ->
  isASCII (recType e) = true ->
  isASCII (rrType rr) = true ->
  lowerASCII (recType e) = lowerASCII (rrType rr) ->
  isASCII (plName payload) = true ->
  recName e = plName payload
  \/ recName e = (plName payload ++ "." ++ zoneAddress zone)%string ->
  isUpdateCall (setCallOf p zone existing rr) = true
  /\ (rrData rr = "" \/ recData e = rrData rr ->
      In e (deleteTargets zone existing [rr])).
Proof.
  intros payload Hin Ht1 Ht2 Htype Hname Hshape.
  assert (Hself : EqualFold (plName payload) (plName payload) = true).
  { rewrite (EqualFold_ascii _ _ Hname Hname). apply String.eqb_refl. }
  assert (Hty : EqualFold (recType e) (rrType rr) = true).
  { rewrite (EqualFold_ascii _ _ Ht1 Ht2), Htype. apply String.eqb_refl. }
  assert (Hnm : namesMatch (recName e) (plName payload) zone = true).
  { rewrite namesMatch_unfold. destruct Hshape as [-> | ->].
    - rewrite Hself. apply orb_true_r.
    - now rewrite TrimSuffix_app, Hself. }
  split.
  - unfold setCallOf, findMatched. fold payload.
    destruct (find_finds
                (fun x => EqualFold (recType x) (rrType rr)
                          && namesMatch (recName x) (plName payload) zone)
                existing e Hin) as [y Hy].
    + now rewrite Hty, Hnm.
    + now rewrite Hy.
  - intros Hdata. unfold deleteTargets. cbn [flat_map]. rewrite app_nil_r.
    apply filter_In. split; [exact Hin|].
    unfold deleteMatches. fold payload. rewrite Hty, Hnm. cbn.
    destruct Hdata as [-> | ->]; [reflexivity|].
    rewrite String.eqb_refl. apply orb_true_r.
Qed.

Lemma X19_stored_record_is_found_witness :
  let stored :=
    echoRecord 7 {| plType := "txt"; plName := "_acme-challenge.g";
                    plData := "token"; plTTL := 60 |} in
  let input := {| rrName := "_acme-challenge"; rrTTL := 60 * Second;
                  rrType := "TXT"; rrData := "" |} in
  isUpdateCall (setCallOf (rt := asciiRuntime) demoProvider "g.omg.lol."
                  [stored] input) = true
  /\ In stored (deleteTargets (rt := asciiRuntime) "g.omg.lol." [stored] [input]).
Proof.
  intros stored input.
  destruct (X19_stored_record_is_found asciiRuntime demoProvider "g.omg.lol."
              input [stored] stored (or_introl eq_refl) eq_refl eq_refl eq_refl
              eq_refl (or_intror eq_refl)) as [Hset Hdel].
  split; [exact Hset | exact (Hdel (or_introl eq_refl))].
Defined.

(** * The address of a zone *)

(** A string is a single label, or a label, a dot and a rest. *)
Lemma first_label_split (s : string) :
  dotFree s = true
  \/ exists a b : string, s = (a ++ "." ++ b)%string /\ dotFree a = true.
Proof.
  induction s as [|c s IH]; [now left|].
  destruct (Ascii.eqb_spec c ".") as [->|Hc].
  - right. exists "", s. split; reflexivity.
  - apply Ascii.eqb_neq in Hc.
    destruct IH as [Hfree | (a & b & -> & Ha)].
    + left. cbn. now rewrite Hc, Hfree.
    + right. exists (String c a), b. split; [reflexivity|].
      cbn. now rewrite Hc, Ha.
Qed.

Lemma prefix_trans_app (a b c : string) :
  prefix a b = true -> prefix a (b ++ c) = true.
Proof.
  revert b. induction a as [|x a IH]; intros b H.
  - now destruct (b ++ c)%string.
  - destruct b as [|y b]; [discriminate H|].
    change (prefix (String x a) (String y b ++ c))
      with (if ascii_dec x y then prefix a (b ++ c) else false).
    change (prefix (String x a) (String y b))
      with (if ascii_dec x y then prefix a b else false) in H.
    destruct (ascii_dec x y); [now apply IH | discriminate H].
Qed.

(** X20: the address taken from a zone is a single label: it holds no dot
    and the zone starts with it.  With a non-empty address no payload has an
    empty name. *)
Theorem X20_zone_address (zone : string) (rr : RR) :
  dotFree (zoneAddress zone) = true
  /\ prefix (zoneAddress zone) zone = true
  /\ (zoneAddress zone <> "" -> plName (libdnsRecordToPayload rr zone) <> "").
Proof.
  assert (Hzone : exists tail : string,
             zone = (TrimSuffix zone "." ++ tail)%string).
  { destruct (HasSuffix zone ".") eqn:E.
    - exists ".". now apply HasSuffix_split.
    - exists "". unfold TrimSuffix. rewrite E. symmetry. apply app_empty_r. }
  destruct Hzone as [tail Hzone].
  assert (Haddr : dotFree (zoneAddress zone) = true
                  /\ prefix (zoneAddress zone) (TrimSuffix zone ".") = true).
  { destruct (first_label_split (TrimSuffix zone ".")) as [Hfree | (a & b & Hs & Ha)].
    - rewrite (zoneAddress_single_label zone Hfree). split; [exact Hfree|].
      rewrite <- (app_empty_r (TrimSuffix zone ".")) at 2. apply prefix_app.
    - rewrite (zoneAddress_first_label zone a b Ha Hs). split; [exact Ha|].
      rewrite Hs. apply prefix_app. }
  destruct Haddr as [Hfree Hpre]. split; [exact Hfree|]. split.
  - rewrite Hzone at 2. now apply prefix_trans_app.
  - intros Hne. unfold libdnsRecordToPayload, toProviderName. cbn [plName].
    destruct (String.eqb_spec (RelativeName (rrName rr) zone) "@") as [|_];
      [exact Hne|].
    destruct (String.eqb_spec (RelativeName (rrName rr) zone) "") as [|Hn];
      [exact Hne | exact Hn].
Qed.
